(** * Track routing core of the SFU: tracks, simulcast bundles, registry

    A shallow embedding of [track.go] (package [sfu]) in its current
    version: the single-encoding [Track], the [SimulcastTrack] bundle, the
    per-client [trackList] and [RIDToQuality] (which the older version of
    the file has word for word).  Pointers that may be nil are [option]s,
    Go maps are finite maps, callbacks and log calls are recorded in a
    trace of events, and the mutexes (which only serialise the calls
    modelled here) are left out: every function below is one critical
    section or a sequence of them run by one goroutine. *)

From Stdlib Require Import ZArith String List Lia Bool.
From stdpp Require Import gmap strings list.

Local Open Scope string_scope.
Local Open Scope Z_scope.

(** ** Types of the collaborating packages *)

(** [webrtc.RTPCodecType]: the zero value and the two kinds. *)
Inductive RTPCodecType := RTPCodecTypeUnknown | RTPCodecTypeAudio | RTPCodecTypeVideo.

(** [webrtc.MimeTypeVP9]. *)
Definition MimeTypeVP9 : string := "video/VP9".

(** [webrtc.RTPCodecParameters], the fields the tracks read. *)
Record RTPCodecParameters := mkCodec {
  MimeType : string;
  PayloadType : Z          (* uint8 *)
}.

(** Modelled from the spec: the declaration of [QualityLevel], which is
    outside [track.go].  The three levels the tracks name are constructors;
    [QualityOther] stands for every other value of the underlying integer
    type, so that the [default] arms of the switches below stay reachable. *)
Inductive QualityLevel :=
| QualityHigh
| QualityMid
| QualityLow
| QualityOther (code : N).

(** [IRemoteTrack]: the inbound encoding handed over by the transport; its
    methods are constant for the life of the track and read as fields. *)
Record IRemoteTrack := mkIRemoteTrack {
  rt_ID : string;
  rt_RID : string;
  rt_Msid : string;
  rt_StreamID : string;
  rt_Kind : RTPCodecType;
  rt_Codec : RTPCodecParameters;
  rt_SSRC : Z;             (* webrtc.SSRC, uint32 *)
  rt_IsRelay : bool
}.

(** Modelled from the spec: the struct [remoteTrack] and [newRemoteTrack],
    which are outside [track.go].  A remote track
    wraps one inbound encoding; [Track()] returns it and [IsRelay()] says
    whether it came from another SFU.  The parent context the constructor
    takes is not a field of the record: whether it is cancelled is state
    of its owner (the [cancelled] flag of a bundle), and
    [remoteTrack_ContextDone] below reads the remote track's context from
    it. *)
Record remoteTrack := mkRemoteTrack {
  track : IRemoteTrack;
  rt_reordered : bool;
  rt_pliInterval : Z
}.

Definition newRemoteTrack (reordered : bool) (tr : IRemoteTrack) (pliInterval : Z)
  : remoteTrack :=
  mkRemoteTrack tr reordered pliInterval.


Definition remoteTrack_IsRelay (rt : remoteTrack) : bool := rt_IsRelay (track rt).

Definition remoteTrack_Track (rt : remoteTrack) : IRemoteTrack := track rt.

(** [Client], as far as the tracks use it. *)
Record Client := mkClient {
  client_id : string;
  receiveRED : bool
}.

(** Callbacks are opaque to the tracks: a callback is named by a number and
    each call of it is recorded in the trace. *)
Definition callback := nat.

(** Modelled from the spec: the constructors [newScaleableClientTrack],
    [newClientTrackRed], [newClientTrack] and [newSimulcastClientTrack],
    which are outside [track.go]; a client-track is the variant that was
    built, with the subscriber and the id of the source track. *)
Inductive iClientTrack :=
| scaleableClientTrack (c : Client) (trackID : string)
| clientTrackRed (c : Client) (trackID : string)
| clientTrack (c : Client) (trackID : string) (isScreen : bool)
| simulcastClientTrack (c : Client) (trackID : string).

(** [*rtp.Packet]: a packet owned by the read loop, or a buffer of the
    packet pool. *)
Inductive PacketPtr :=
| ReaderPacket (a : nat)
| PoolPacket (b : nat).

Record rtpHeader := mkHeader {
  SequenceNumber : Z;      (* uint16 *)
  Timestamp : Z;           (* uint32 *)
  SSRC : Z;
  Marker : bool
}.

Record rtpPacket := mkPacket {
  Header : rtpHeader;
  Payload : list Z
}.

Definition zeroPacket : rtpPacket := mkPacket (mkHeader 0 0 0 false) [].

(** What the tracks do to the outside world, in program order. *)
Inductive event :=
| EvWarnf (msg : string)
| EvInfof (msg : string)
| EvSendPLI (ssrc : Z)                                   (* remoteTrack.sendPLI() *)
| EvOnTrackComplete                                      (* t.onTrackComplete() entered *)
| EvTrackCompleteCallback (f : callback)                 (* f() *)
| EvRemoteTrackAddedCallback (f : callback) (rt : remoteTrack)
| EvCancel                                               (* t.cancel() *)
| EvNewPacket                                            (* rtppool.NewPacket *)
| EvPacketRelease                                        (* packet.Release() *)
| EvAcquire (b : nat)                                    (* GetPacketAllocationFromPool *)
| EvRelease (b : nat)                                    (* ResetPacketPoolAllocation *)
| EvPush (ct : iClientTrack) (p : PacketPtr) (pkt : rtpPacket) (q : QualityLevel)
| EvReadCallback (f : callback) (p : PacketPtr) (pkt : rtpPacket) (q : QualityLevel).

(** Modelled from the spec: [remoteTrack.sendPLI()], which is outside
    [track.go]: a keyframe request for the SSRC of the encoding (how the
    remote track spaces its requests by [pliInterval] is not modelled). *)
Definition remoteTrack_sendPLI (rt : remoteTrack) : list event :=
  [EvSendPLI (rt_SSRC (track rt))].

(** [TrackType] and its two constants. *)
Definition TrackType := string.
Definition TrackTypeMedia : TrackType := "media".
Definition TrackTypeScreen : TrackType := "screen".

Definition RTPCodecType_eqb (a b : RTPCodecType) : bool :=
  match a, b with
  | RTPCodecTypeUnknown, RTPCodecTypeUnknown
  | RTPCodecTypeAudio, RTPCodecTypeAudio
  | RTPCodecTypeVideo, RTPCodecTypeVideo => true
  | _, _ => false
  end.

(** Dereferencing a pointer: a nil pointer panics. *)
Inductive result (A : Type) :=
| Returns (a : A)
| Panics.
Arguments Returns {A} a.
Arguments Panics {A}.

Definition deref {A : Type} (p : option A) : result A :=
  match p with
  | Some a => Returns a
  | None => Panics
  end.

Definition isNil {A : Type} (p : option A) : bool :=
  match p with
  | Some _ => false
  | None => true
  end.

Definition andThen {A B : Type} (r : result A) (k : A -> result B) : result B :=
  match r with
  | Returns a => k a
  | Panics => Panics
  end.

(** The three parts of what a modelled call gives back: the value the Go
    function returns, the receiver after the call, and the trace of the call. *)
Definition returned {A B C : Type} (r : A * B * C) : A := fst (fst r).
Definition state {A B C : Type} (r : A * B * C) : B := snd (fst r).
Definition events {A B C : Type} (r : A * B * C) : C := snd r.

(** ** Time *)

(** [time.Duration] and Unix times are int64 nanoseconds; [Time.Sub]
    saturates at the ends of the range. *)
Definition Millisecond : Z := 1000000.
Definition maxDuration : Z := 2 ^ 63 - 1.
Definition minDuration : Z := - 2 ^ 63.

Definition Time_Sub (t u : Z) : Z :=
  if t - u >? maxDuration then maxDuration
  else if t - u <? minDuration then minDuration
  else t - u.

(** [time.Since(time.Unix(0, ts))] when the clock reads [now]. *)
Definition time_Since (now ts : Z) : Z := Time_Sub now ts.

(** ** [RIDToQuality] *)

Definition RIDToQuality (RID : string) : QualityLevel :=
  if String.eqb RID "high" then QualityHigh
  else if String.eqb RID "mid" then QualityMid
  else QualityLow.

(** ** The packet pool *)

Module rtppool.

(** Modelled from the spec: package [rtppool], which [track.go] imports.
    Acquire returns any previously released buffer or a freshly
    allocated one (which one is the caller-invisible [policy]); release
    clears the buffer and returns it to the pool.  [NewPacket] wraps a
    header and a payload for a scoped region. *)
Record Pool := mkPool {
  free : list nat;               (* released buffers *)
  next : nat;                    (* the next buffer never handed out *)
  bufs : gmap nat rtpPacket      (* what each buffer holds *)
}.

Definition policy := list nat -> option nat.

Definition fresh (pl : Pool) : nat * Pool :=
  (next pl, mkPool (free pl) (S (next pl)) (<[next pl := zeroPacket]> (bufs pl))).

Definition GetPacketAllocationFromPool (pick : policy) (pl : Pool) : nat * Pool :=
  match pick (free pl) with
  | Some i =>
      match free pl !! i with
      | Some b => (b, mkPool (delete i (free pl)) (next pl) (bufs pl))
      | None => fresh pl
      end
  | None => fresh pl
  end.

Definition ResetPacketPoolAllocation (b : nat) (pl : Pool) : Pool :=
  mkPool (b :: free pl) (next pl) (<[b := zeroPacket]> (bufs pl)).

Record RetainablePacket := mkRetainable {
  rp_Header : rtpHeader;
  rp_Payload : list Z
}.

Definition NewPacket (h : rtpHeader) (payload : list Z) : RetainablePacket :=
  mkRetainable h payload.

Definition empty : Pool := mkPool [] 0%nat ∅.

(** Two policies: reuse the buffer released last, and never reuse. *)
Definition lifo : policy := fun fr => match fr with [] => None | _ => Some 0%nat end.
Definition always_fresh : policy := fun _ => None.

End rtppool.

(** ** The fan-out's view of memory *)

(** The pool, the packets the read loops own, and the trace so far. *)
Record World := mkWorld {
  pool : rtppool.Pool;
  reader : gmap nat rtpPacket;
  trace : list event
}.

Definition M (A : Type) : Type := World -> A * World.

Definition ret {A : Type} (a : A) : M A := fun w => (a, w).

Definition bind {A B : Type} (c : M A) (k : A -> M B) : M B :=
  fun w => let '(a, w1) := c w in k a w1.

Notation "'let*' x ':=' c 'in' k" := (bind c (fun x => k))
  (at level 10, x name, c at level 100, k at level 200, only parsing).
Notation "c >> k" := (bind c (fun _ => k))
  (at level 100, k at level 200, right associativity, only parsing).

Definition emit (e : event) : M unit :=
  fun w => (tt, mkWorld (pool w) (reader w) (trace w ++ [e])).

Definition contents (w : World) (p : PacketPtr) : rtpPacket :=
  match p with
  | ReaderPacket a => default zeroPacket (reader w !! a)
  | PoolPacket b => default zeroPacket (rtppool.bufs (pool w) !! b)
  end.

(** [*p] *)
Definition load (p : PacketPtr) : M rtpPacket := fun w => (contents w p, w).

(** [rtppool.GetPacketAllocationFromPool()] *)
Definition acquire (pick : rtppool.policy) : M nat :=
  fun w =>
    let '(b, pl) := rtppool.GetPacketAllocationFromPool pick (pool w) in
    (b, mkWorld pl (reader w) (trace w ++ [EvAcquire b])).

(** [rtppool.ResetPacketPoolAllocation(b)] *)
Definition release (b : nat) : M unit :=
  fun w =>
    (tt, mkWorld (rtppool.ResetPacketPoolAllocation b (pool w)) (reader w)
                 (trace w ++ [EvRelease b])).

Definition storeBuf (b : nat) (f : rtpPacket -> rtpPacket) : M unit :=
  fun w =>
    let pl := pool w in
    let old := default zeroPacket (rtppool.bufs pl !! b) in
    (tt, mkWorld (rtppool.mkPool (rtppool.free pl) (rtppool.next pl)
                    (<[b := f old]> (rtppool.bufs pl)))
                 (reader w) (trace w)).

(** [copyPacket.Header = h] and [copyPacket.Payload = payload] *)
Definition setHeader (b : nat) (h : rtpHeader) : M unit :=
  storeBuf b (fun old => mkPacket h (Payload old)).
Definition setPayload (b : nat) (payload : list Z) : M unit :=
  storeBuf b (fun old => mkPacket (Header old) payload).

(** [rtppool.NewPacket(&p.Header, p.Payload)] and [packet.Release()] *)
Definition newPacket (p : PacketPtr) : M rtppool.RetainablePacket :=
  let* pk := load p in
  emit EvNewPacket >>
  ret (rtppool.NewPacket (Header pk) (Payload pk)).
Definition packetRelease (_ : rtppool.RetainablePacket) : M unit := emit EvPacketRelease.

(** [for _, x := range l { body }] *)
Fixpoint forEach {A : Type} (l : list A) (body : A -> M unit) : M unit :=
  match l with
  | [] => ret tt
  | x :: rest => body x >> forEach rest body
  end.

(** [track.push(p, quality)] on a client-track: the call, with what the
    buffer holds when it is made. *)
Definition push (ct : iClientTrack) (p : PacketPtr) (q : QualityLevel) : M unit :=
  let* pk := load p in emit (EvPush ct p pk q).

(** [callback(p, quality)] *)
Definition call (f : callback) (p : PacketPtr) (q : QualityLevel) : M unit :=
  let* pk := load p in emit (EvReadCallback f p pk q).

(** The body of the loop over the client-tracks, which the [onRead]
    closures of [newTrack] and of [AddRemoteTrack] both spell out: the
    packet [p] is copied into a pool buffer, the buffer is pushed to the
    client-track [ct] and released. *)
Definition pushCopy (pick : rtppool.policy) (p : PacketPtr) (quality : QualityLevel)
    (ct : iClientTrack) : M unit :=
  let* packet := newPacket p in
  let* copyPacket := acquire pick in
  setHeader copyPacket (rtppool.rp_Header packet) >>
  setPayload copyPacket (rtppool.rp_Payload packet) >>
  push ct (PoolPacket copyPacket) quality >>
  release copyPacket >>
  packetRelease packet.

(** ** [baseTrack] *)

Module baseTrack.

Record baseTrack := mk {
  id : string;
  msid : string;
  streamid : string;
  client : Client;
  isProcessed : bool;
  kind : RTPCodecType;
  codec : RTPCodecParameters;
  isScreen : bool;                    (* atomic.Bool *)
  clientTracks : list iClientTrack    (* clientTrackList, in order of Add *)
}.

Definition set_isProcessed (v : bool) (b : baseTrack) : baseTrack :=
  mk (id b) (msid b) (streamid b) (client b) v (kind b) (codec b) (isScreen b) (clientTracks b).
Definition set_isScreen (v : bool) (b : baseTrack) : baseTrack :=
  mk (id b) (msid b) (streamid b) (client b) (isProcessed b) (kind b) (codec b) v (clientTracks b).
Definition set_clientTracks (v : list iClientTrack) (b : baseTrack) : baseTrack :=
  mk (id b) (msid b) (streamid b) (client b) (isProcessed b) (kind b) (codec b) (isScreen b) v.

(** The [baseTrack] both constructors build from the first encoding. *)
Definition new (c : Client) (tr : IRemoteTrack) : baseTrack :=
  mk (rt_ID tr) (rt_Msid tr) (rt_StreamID tr) c false (rt_Kind tr) (rt_Codec tr) false [].

End baseTrack.

(** ** [Track]: one encoding *)

Module Track.

Record Track := mk {
  base : baseTrack.baseTrack;
  remoteTrack : remoteTrack;
  onEndedCallbacks : list callback;
  onReadCallbacks : list callback
}.

Definition set_base (v : baseTrack.baseTrack) (t : Track) : Track :=
  mk v (remoteTrack t) (onEndedCallbacks t) (onReadCallbacks t).
Definition set_onReadCallbacks (v : list callback) (t : Track) : Track :=
  mk (base t) (remoteTrack t) (onEndedCallbacks t) v.

Definition newTrack (c : Client) (reorderPackets : bool) (trackRemote : IRemoteTrack)
    (pliInterval : Z) : Track :=
  mk (baseTrack.new c trackRemote)
     (newRemoteTrack reorderPackets trackRemote pliInterval) [] [].

Definition ClientID (t : Track) : string := client_id (baseTrack.client (base t)).
Definition ID (t : Track) : string := baseTrack.id (base t).
Definition StreamID (t : Track) : string := baseTrack.streamid (base t).
Definition SSRC (t : Track) : Z := rt_SSRC (track (remoteTrack t)).
Definition IsScreen (t : Track) : bool := baseTrack.isScreen (base t).
Definition IsSimulcast (t : Track) : bool := false.
Definition Kind (t : Track) : RTPCodecType := baseTrack.kind (base t).
Definition MimeType (t : Track) : string := MimeType (baseTrack.codec (base t)).
Definition PayloadType (t : Track) : Z := PayloadType (baseTrack.codec (base t)).
Definition IsScaleable (t : Track) : bool := String.eqb (MimeType t) MimeTypeVP9.
Definition IsProcessed (t : Track) : bool := baseTrack.isProcessed (base t).
Definition TotalTracks (t : Track) : Z := 1.
Definition IsRelay (t : Track) : bool := remoteTrack_IsRelay (remoteTrack t).

Definition SetSourceType (sourceType : TrackType) (t : Track) : Track :=
  set_base (baseTrack.set_isScreen (String.eqb sourceType TrackTypeScreen) (base t)) t.

Definition SourceType (t : Track) : TrackType :=
  if baseTrack.isScreen (base t) then TrackTypeScreen else TrackTypeMedia.

Definition SetAsProcessed (t : Track) : Track :=
  set_base (baseTrack.set_isProcessed true (base t)) t.

(** [subscribe]: the client-track built, the track with it appended to the
    client-track list, and the log line and PLI request on the way. *)
Definition subscribe (c : Client) (t : Track) : iClientTrack * Track * list event :=
  let '(ct, logged) :=
    if String.eqb (MimeType t) MimeTypeVP9 then
      (scaleableClientTrack c (ID t), [])
    else if RTPCodecType_eqb (Kind t) RTPCodecTypeAudio && (PayloadType t =? 63) then
      (clientTrackRed c (ID t), [EvInfof "track: red enabled"])
    else
      (clientTrack c (ID t) (IsScreen t), []) in
  let pli :=
    if RTPCodecType_eqb (Kind t) RTPCodecTypeVideo
    then remoteTrack_sendPLI (remoteTrack t) else [] in
  (ct,
   set_base (baseTrack.set_clientTracks (baseTrack.clientTracks (base t) ++ [ct]) (base t)) t,
   (logged ++ pli)%list).

Definition OnRead (f : callback) (t : Track) : Track :=
  set_onReadCallbacks (onReadCallbacks t ++ [f]) t.

(** [(t *Track) onRead(p, quality)]: the body of its loop, for the
    callback [f], and the loop. *)
Definition onRead_body (pick : rtppool.policy) (p : PacketPtr) (quality : QualityLevel)
    (f : callback) : M unit :=
  let* copyPacket := acquire pick in
  let* pk := load p in
  setHeader copyPacket (Header pk) >>
  setPayload copyPacket (Payload pk) >>
  call f p quality >>
  release copyPacket.

Definition onRead (pick : rtppool.policy) (t : Track) (p : PacketPtr) (quality : QualityLevel)
  : M unit :=
  forEach (onReadCallbacks t) (onRead_body pick p quality).

(** The [onRead] closure [newTrack] hands to the remote track: run by the
    read loop on every packet [p] of the encoding. *)
Definition newTrack_onRead (pick : rtppool.policy) (t : Track) (p : PacketPtr) : M unit :=
  forEach (baseTrack.clientTracks (base t)) (pushCopy pick p QualityHigh) >>
  let* packet := newPacket p in
  let* copyPacket := acquire pick in
  setHeader copyPacket (rtppool.rp_Header packet) >>
  setPayload copyPacket (rtppool.rp_Payload packet) >>
  onRead pick t (PoolPacket copyPacket) QualityHigh >>
  release copyPacket >>
  packetRelease packet.

End Track.

(** ** [SimulcastTrack]: a bundle of up to three encodings *)

Module SimulcastTrack.

Record SimulcastTrack := mk {
  cancelled : bool;   (* the bundle's context has been cancelled *)
  base : baseTrack.baseTrack;
  baseTS : Z;   (* uint32 *)
  onTrackCompleteCallbacks : list callback;
  remoteTrackHigh : option remoteTrack;
  remoteTrackHighBaseTS : Z;
  highSequence : Z;   (* uint16 *)
  lastHighSequence : Z;
  remoteTrackMid : option remoteTrack;
  remoteTrackMidBaseTS : Z;
  midSequence : Z;
  lastMidSequence : Z;
  remoteTrackLow : option remoteTrack;
  remoteTrackLowBaseTS : Z;
  lowSequence : Z;
  lastLowSequence : Z;
  lastReadHighTS : Z;   (* atomic.Int64, Unix nanoseconds *)
  lastReadMidTS : Z;
  lastReadLowTS : Z;
  lastHighKeyframeTS : Z;
  lastMidKeyframeTS : Z;
  lastLowKeyframeTS : Z;
  onAddedRemoteTrackCallbacks : list callback;
  onReadCallbacks : list callback;
  pliInterval : Z;   (* time.Duration *)
  reordered : bool
}.

(** Assignments to one field of the struct. *)
Definition set_cancelled (v : bool) (t : SimulcastTrack) : SimulcastTrack :=
  mk v (base t) (baseTS t) (onTrackCompleteCallbacks t) (remoteTrackHigh t)
     (remoteTrackHighBaseTS t) (highSequence t) (lastHighSequence t) (remoteTrackMid t)
     (remoteTrackMidBaseTS t) (midSequence t) (lastMidSequence t) (remoteTrackLow t)
     (remoteTrackLowBaseTS t) (lowSequence t) (lastLowSequence t) (lastReadHighTS t)
     (lastReadMidTS t) (lastReadLowTS t) (lastHighKeyframeTS t) (lastMidKeyframeTS t)
     (lastLowKeyframeTS t) (onAddedRemoteTrackCallbacks t) (onReadCallbacks t) (pliInterval t)
     (reordered t).
Definition set_base (v : baseTrack.baseTrack) (t : SimulcastTrack) : SimulcastTrack :=
  mk (cancelled t) v (baseTS t) (onTrackCompleteCallbacks t) (remoteTrackHigh t)
     (remoteTrackHighBaseTS t) (highSequence t) (lastHighSequence t) (remoteTrackMid t)
     (remoteTrackMidBaseTS t) (midSequence t) (lastMidSequence t) (remoteTrackLow t)
     (remoteTrackLowBaseTS t) (lowSequence t) (lastLowSequence t) (lastReadHighTS t)
     (lastReadMidTS t) (lastReadLowTS t) (lastHighKeyframeTS t) (lastMidKeyframeTS t)
     (lastLowKeyframeTS t) (onAddedRemoteTrackCallbacks t) (onReadCallbacks t) (pliInterval t)
     (reordered t).
Definition set_baseTS (v : Z) (t : SimulcastTrack) : SimulcastTrack :=
  mk (cancelled t) (base t) v (onTrackCompleteCallbacks t) (remoteTrackHigh t)
     (remoteTrackHighBaseTS t) (highSequence t) (lastHighSequence t) (remoteTrackMid t)
     (remoteTrackMidBaseTS t) (midSequence t) (lastMidSequence t) (remoteTrackLow t)
     (remoteTrackLowBaseTS t) (lowSequence t) (lastLowSequence t) (lastReadHighTS t)
     (lastReadMidTS t) (lastReadLowTS t) (lastHighKeyframeTS t) (lastMidKeyframeTS t)
     (lastLowKeyframeTS t) (onAddedRemoteTrackCallbacks t) (onReadCallbacks t) (pliInterval t)
     (reordered t).
Definition set_onTrackCompleteCallbacks (v : list callback) (t : SimulcastTrack) : SimulcastTrack :=
  mk (cancelled t) (base t) (baseTS t) v (remoteTrackHigh t) (remoteTrackHighBaseTS t)
     (highSequence t) (lastHighSequence t) (remoteTrackMid t) (remoteTrackMidBaseTS t)
     (midSequence t) (lastMidSequence t) (remoteTrackLow t) (remoteTrackLowBaseTS t) (lowSequence t)
     (lastLowSequence t) (lastReadHighTS t) (lastReadMidTS t) (lastReadLowTS t)
     (lastHighKeyframeTS t) (lastMidKeyframeTS t) (lastLowKeyframeTS t)
     (onAddedRemoteTrackCallbacks t) (onReadCallbacks t) (pliInterval t) (reordered t).
Definition set_remoteTrackHigh (v : option remoteTrack) (t : SimulcastTrack) : SimulcastTrack :=
  mk (cancelled t) (base t) (baseTS t) (onTrackCompleteCallbacks t) v (remoteTrackHighBaseTS t)
     (highSequence t) (lastHighSequence t) (remoteTrackMid t) (remoteTrackMidBaseTS t)
     (midSequence t) (lastMidSequence t) (remoteTrackLow t) (remoteTrackLowBaseTS t) (lowSequence t)
     (lastLowSequence t) (lastReadHighTS t) (lastReadMidTS t) (lastReadLowTS t)
     (lastHighKeyframeTS t) (lastMidKeyframeTS t) (lastLowKeyframeTS t)
     (onAddedRemoteTrackCallbacks t) (onReadCallbacks t) (pliInterval t) (reordered t).
Definition set_remoteTrackHighBaseTS (v : Z) (t : SimulcastTrack) : SimulcastTrack :=
  mk (cancelled t) (base t) (baseTS t) (onTrackCompleteCallbacks t) (remoteTrackHigh t) v
     (highSequence t) (lastHighSequence t) (remoteTrackMid t) (remoteTrackMidBaseTS t)
     (midSequence t) (lastMidSequence t) (remoteTrackLow t) (remoteTrackLowBaseTS t) (lowSequence t)
     (lastLowSequence t) (lastReadHighTS t) (lastReadMidTS t) (lastReadLowTS t)
     (lastHighKeyframeTS t) (lastMidKeyframeTS t) (lastLowKeyframeTS t)
     (onAddedRemoteTrackCallbacks t) (onReadCallbacks t) (pliInterval t) (reordered t).
Definition set_highSequence (v : Z) (t : SimulcastTrack) : SimulcastTrack :=
  mk (cancelled t) (base t) (baseTS t) (onTrackCompleteCallbacks t) (remoteTrackHigh t)
     (remoteTrackHighBaseTS t) v (lastHighSequence t) (remoteTrackMid t) (remoteTrackMidBaseTS t)
     (midSequence t) (lastMidSequence t) (remoteTrackLow t) (remoteTrackLowBaseTS t) (lowSequence t)
     (lastLowSequence t) (lastReadHighTS t) (lastReadMidTS t) (lastReadLowTS t)
     (lastHighKeyframeTS t) (lastMidKeyframeTS t) (lastLowKeyframeTS t)
     (onAddedRemoteTrackCallbacks t) (onReadCallbacks t) (pliInterval t) (reordered t).
Definition set_lastHighSequence (v : Z) (t : SimulcastTrack) : SimulcastTrack :=
  mk (cancelled t) (base t) (baseTS t) (onTrackCompleteCallbacks t) (remoteTrackHigh t)
     (remoteTrackHighBaseTS t) (highSequence t) v (remoteTrackMid t) (remoteTrackMidBaseTS t)
     (midSequence t) (lastMidSequence t) (remoteTrackLow t) (remoteTrackLowBaseTS t) (lowSequence t)
     (lastLowSequence t) (lastReadHighTS t) (lastReadMidTS t) (lastReadLowTS t)
     (lastHighKeyframeTS t) (lastMidKeyframeTS t) (lastLowKeyframeTS t)
     (onAddedRemoteTrackCallbacks t) (onReadCallbacks t) (pliInterval t) (reordered t).
Definition set_remoteTrackMid (v : option remoteTrack) (t : SimulcastTrack) : SimulcastTrack :=
  mk (cancelled t) (base t) (baseTS t) (onTrackCompleteCallbacks t) (remoteTrackHigh t)
     (remoteTrackHighBaseTS t) (highSequence t) (lastHighSequence t) v (remoteTrackMidBaseTS t)
     (midSequence t) (lastMidSequence t) (remoteTrackLow t) (remoteTrackLowBaseTS t) (lowSequence t)
     (lastLowSequence t) (lastReadHighTS t) (lastReadMidTS t) (lastReadLowTS t)
     (lastHighKeyframeTS t) (lastMidKeyframeTS t) (lastLowKeyframeTS t)
     (onAddedRemoteTrackCallbacks t) (onReadCallbacks t) (pliInterval t) (reordered t).
Definition set_remoteTrackMidBaseTS (v : Z) (t : SimulcastTrack) : SimulcastTrack :=
  mk (cancelled t) (base t) (baseTS t) (onTrackCompleteCallbacks t) (remoteTrackHigh t)
     (remoteTrackHighBaseTS t) (highSequence t) (lastHighSequence t) (remoteTrackMid t) v
     (midSequence t) (lastMidSequence t) (remoteTrackLow t) (remoteTrackLowBaseTS t) (lowSequence t)
     (lastLowSequence t) (lastReadHighTS t) (lastReadMidTS t) (lastReadLowTS t)
     (lastHighKeyframeTS t) (lastMidKeyframeTS t) (lastLowKeyframeTS t)
     (onAddedRemoteTrackCallbacks t) (onReadCallbacks t) (pliInterval t) (reordered t).
Definition set_midSequence (v : Z) (t : SimulcastTrack) : SimulcastTrack :=
  mk (cancelled t) (base t) (baseTS t) (onTrackCompleteCallbacks t) (remoteTrackHigh t)
     (remoteTrackHighBaseTS t) (highSequence t) (lastHighSequence t) (remoteTrackMid t)
     (remoteTrackMidBaseTS t) v (lastMidSequence t) (remoteTrackLow t) (remoteTrackLowBaseTS t)
     (lowSequence t) (lastLowSequence t) (lastReadHighTS t) (lastReadMidTS t) (lastReadLowTS t)
     (lastHighKeyframeTS t) (lastMidKeyframeTS t) (lastLowKeyframeTS t)
     (onAddedRemoteTrackCallbacks t) (onReadCallbacks t) (pliInterval t) (reordered t).
Definition set_lastMidSequence (v : Z) (t : SimulcastTrack) : SimulcastTrack :=
  mk (cancelled t) (base t) (baseTS t) (onTrackCompleteCallbacks t) (remoteTrackHigh t)
     (remoteTrackHighBaseTS t) (highSequence t) (lastHighSequence t) (remoteTrackMid t)
     (remoteTrackMidBaseTS t) (midSequence t) v (remoteTrackLow t) (remoteTrackLowBaseTS t)
     (lowSequence t) (lastLowSequence t) (lastReadHighTS t) (lastReadMidTS t) (lastReadLowTS t)
     (lastHighKeyframeTS t) (lastMidKeyframeTS t) (lastLowKeyframeTS t)
     (onAddedRemoteTrackCallbacks t) (onReadCallbacks t) (pliInterval t) (reordered t).
Definition set_remoteTrackLow (v : option remoteTrack) (t : SimulcastTrack) : SimulcastTrack :=
  mk (cancelled t) (base t) (baseTS t) (onTrackCompleteCallbacks t) (remoteTrackHigh t)
     (remoteTrackHighBaseTS t) (highSequence t) (lastHighSequence t) (remoteTrackMid t)
     (remoteTrackMidBaseTS t) (midSequence t) (lastMidSequence t) v (remoteTrackLowBaseTS t)
     (lowSequence t) (lastLowSequence t) (lastReadHighTS t) (lastReadMidTS t) (lastReadLowTS t)
     (lastHighKeyframeTS t) (lastMidKeyframeTS t) (lastLowKeyframeTS t)
     (onAddedRemoteTrackCallbacks t) (onReadCallbacks t) (pliInterval t) (reordered t).
Definition set_remoteTrackLowBaseTS (v : Z) (t : SimulcastTrack) : SimulcastTrack :=
  mk (cancelled t) (base t) (baseTS t) (onTrackCompleteCallbacks t) (remoteTrackHigh t)
     (remoteTrackHighBaseTS t) (highSequence t) (lastHighSequence t) (remoteTrackMid t)
     (remoteTrackMidBaseTS t) (midSequence t) (lastMidSequence t) (remoteTrackLow t) v
     (lowSequence t) (lastLowSequence t) (lastReadHighTS t) (lastReadMidTS t) (lastReadLowTS t)
     (lastHighKeyframeTS t) (lastMidKeyframeTS t) (lastLowKeyframeTS t)
     (onAddedRemoteTrackCallbacks t) (onReadCallbacks t) (pliInterval t) (reordered t).
Definition set_lowSequence (v : Z) (t : SimulcastTrack) : SimulcastTrack :=
  mk (cancelled t) (base t) (baseTS t) (onTrackCompleteCallbacks t) (remoteTrackHigh t)
     (remoteTrackHighBaseTS t) (highSequence t) (lastHighSequence t) (remoteTrackMid t)
     (remoteTrackMidBaseTS t) (midSequence t) (lastMidSequence t) (remoteTrackLow t)
     (remoteTrackLowBaseTS t) v (lastLowSequence t) (lastReadHighTS t) (lastReadMidTS t)
     (lastReadLowTS t) (lastHighKeyframeTS t) (lastMidKeyframeTS t) (lastLowKeyframeTS t)
     (onAddedRemoteTrackCallbacks t) (onReadCallbacks t) (pliInterval t) (reordered t).
Definition set_lastLowSequence (v : Z) (t : SimulcastTrack) : SimulcastTrack :=
  mk (cancelled t) (base t) (baseTS t) (onTrackCompleteCallbacks t) (remoteTrackHigh t)
     (remoteTrackHighBaseTS t) (highSequence t) (lastHighSequence t) (remoteTrackMid t)
     (remoteTrackMidBaseTS t) (midSequence t) (lastMidSequence t) (remoteTrackLow t)
     (remoteTrackLowBaseTS t) (lowSequence t) v (lastReadHighTS t) (lastReadMidTS t)
     (lastReadLowTS t) (lastHighKeyframeTS t) (lastMidKeyframeTS t) (lastLowKeyframeTS t)
     (onAddedRemoteTrackCallbacks t) (onReadCallbacks t) (pliInterval t) (reordered t).
Definition set_lastReadHighTS (v : Z) (t : SimulcastTrack) : SimulcastTrack :=
  mk (cancelled t) (base t) (baseTS t) (onTrackCompleteCallbacks t) (remoteTrackHigh t)
     (remoteTrackHighBaseTS t) (highSequence t) (lastHighSequence t) (remoteTrackMid t)
     (remoteTrackMidBaseTS t) (midSequence t) (lastMidSequence t) (remoteTrackLow t)
     (remoteTrackLowBaseTS t) (lowSequence t) (lastLowSequence t) v (lastReadMidTS t)
     (lastReadLowTS t) (lastHighKeyframeTS t) (lastMidKeyframeTS t) (lastLowKeyframeTS t)
     (onAddedRemoteTrackCallbacks t) (onReadCallbacks t) (pliInterval t) (reordered t).
Definition set_lastReadMidTS (v : Z) (t : SimulcastTrack) : SimulcastTrack :=
  mk (cancelled t) (base t) (baseTS t) (onTrackCompleteCallbacks t) (remoteTrackHigh t)
     (remoteTrackHighBaseTS t) (highSequence t) (lastHighSequence t) (remoteTrackMid t)
     (remoteTrackMidBaseTS t) (midSequence t) (lastMidSequence t) (remoteTrackLow t)
     (remoteTrackLowBaseTS t) (lowSequence t) (lastLowSequence t) (lastReadHighTS t) v
     (lastReadLowTS t) (lastHighKeyframeTS t) (lastMidKeyframeTS t) (lastLowKeyframeTS t)
     (onAddedRemoteTrackCallbacks t) (onReadCallbacks t) (pliInterval t) (reordered t).
Definition set_lastReadLowTS (v : Z) (t : SimulcastTrack) : SimulcastTrack :=
  mk (cancelled t) (base t) (baseTS t) (onTrackCompleteCallbacks t) (remoteTrackHigh t)
     (remoteTrackHighBaseTS t) (highSequence t) (lastHighSequence t) (remoteTrackMid t)
     (remoteTrackMidBaseTS t) (midSequence t) (lastMidSequence t) (remoteTrackLow t)
     (remoteTrackLowBaseTS t) (lowSequence t) (lastLowSequence t) (lastReadHighTS t)
     (lastReadMidTS t) v (lastHighKeyframeTS t) (lastMidKeyframeTS t) (lastLowKeyframeTS t)
     (onAddedRemoteTrackCallbacks t) (onReadCallbacks t) (pliInterval t) (reordered t).
Definition set_onAddedRemoteTrackCallbacks (v : list callback) (t : SimulcastTrack) : SimulcastTrack :=
  mk (cancelled t) (base t) (baseTS t) (onTrackCompleteCallbacks t) (remoteTrackHigh t)
     (remoteTrackHighBaseTS t) (highSequence t) (lastHighSequence t) (remoteTrackMid t)
     (remoteTrackMidBaseTS t) (midSequence t) (lastMidSequence t) (remoteTrackLow t)
     (remoteTrackLowBaseTS t) (lowSequence t) (lastLowSequence t) (lastReadHighTS t)
     (lastReadMidTS t) (lastReadLowTS t) (lastHighKeyframeTS t) (lastMidKeyframeTS t)
     (lastLowKeyframeTS t) v (onReadCallbacks t) (pliInterval t) (reordered t).
Definition set_onReadCallbacks (v : list callback) (t : SimulcastTrack) : SimulcastTrack :=
  mk (cancelled t) (base t) (baseTS t) (onTrackCompleteCallbacks t) (remoteTrackHigh t)
     (remoteTrackHighBaseTS t) (highSequence t) (lastHighSequence t) (remoteTrackMid t)
     (remoteTrackMidBaseTS t) (midSequence t) (lastMidSequence t) (remoteTrackLow t)
     (remoteTrackLowBaseTS t) (lowSequence t) (lastLowSequence t) (lastReadHighTS t)
     (lastReadMidTS t) (lastReadLowTS t) (lastHighKeyframeTS t) (lastMidKeyframeTS t)
     (lastLowKeyframeTS t) (onAddedRemoteTrackCallbacks t) v (pliInterval t) (reordered t).

Definition empty (c : Client) (tr : IRemoteTrack) (pliInterval : Z) : SimulcastTrack :=
  mk false (baseTrack.new c tr) 0 [] None 0 0 0 None 0 0 0 None 0 0 0 0 0 0 0 0 0 [] []
     pliInterval false.

Definition ClientID (t : SimulcastTrack) : string := client_id (baseTrack.client (base t)).
Definition ID (t : SimulcastTrack) : string := baseTrack.id (base t).
Definition StreamID (t : SimulcastTrack) : string := baseTrack.streamid (base t).
Definition IsSimulcast (t : SimulcastTrack) : bool := true.
Definition IsScaleable (t : SimulcastTrack) : bool := false.
Definition IsProcessed (t : SimulcastTrack) : bool := baseTrack.isProcessed (base t).
Definition Kind (t : SimulcastTrack) : RTPCodecType := baseTrack.kind (base t).
Definition MimeType (t : SimulcastTrack) : string := MimeType (baseTrack.codec (base t)).
Definition PayloadType (t : SimulcastTrack) : Z := PayloadType (baseTrack.codec (base t)).
Definition IsScreen (t : SimulcastTrack) : bool := baseTrack.isScreen (base t).

Definition onRemoteTrackAdded (f : callback) (t : SimulcastTrack) : SimulcastTrack :=
  set_onAddedRemoteTrackCallbacks (onAddedRemoteTrackCallbacks t ++ [f]) t.

Definition onRemoteTrackAddedCallbacks (rt : remoteTrack) (t : SimulcastTrack) : list event :=
  map (fun f => EvRemoteTrackAddedCallback f rt) (onAddedRemoteTrackCallbacks t).

Definition OnTrackComplete (f : callback) (t : SimulcastTrack) : SimulcastTrack :=
  set_onTrackCompleteCallbacks (onTrackCompleteCallbacks t ++ [f]) t.

Definition onTrackComplete (t : SimulcastTrack) : list event :=
  EvOnTrackComplete :: map EvTrackCompleteCallback (onTrackCompleteCallbacks t).

Definition OnRead (f : callback) (t : SimulcastTrack) : SimulcastTrack :=
  set_onReadCallbacks (onReadCallbacks t ++ [f]) t.

(** [(t *SimulcastTrack) onRead(p, quality)] *)
Definition onRead (t : SimulcastTrack) (p : PacketPtr) (quality : QualityLevel) : M unit :=
  forEach (onReadCallbacks t) (fun f => call f p quality).

(** The first half of the [onRead] closure of [AddRemoteTrack]: the base
    timestamps, the time of the read and the sequence numbers, for the
    [quality] the closure captured, on a packet [pk] read at [readTime]. *)
Definition recordRead (quality : QualityLevel) (pk : rtpPacket) (readTime : Z)
    (t : SimulcastTrack) : SimulcastTrack :=
  let ts := Timestamp (Header pk) in
  let sn := SequenceNumber (Header pk) in
  let t := if baseTS t =? 0 then set_baseTS ts t else t in
  let t :=
    match quality with
    | QualityHigh =>
        if remoteTrackHighBaseTS t =? 0 then set_remoteTrackHighBaseTS ts t else t
    | QualityMid =>
        if remoteTrackMidBaseTS t =? 0 then set_remoteTrackMidBaseTS ts t else t
    | QualityLow =>
        if remoteTrackLowBaseTS t =? 0 then set_remoteTrackLowBaseTS ts t else t
    | QualityOther _ => t
    end in
  match quality with
  | QualityHigh =>
      let t := set_lastReadHighTS readTime t in
      let t := set_lastHighSequence (highSequence t) t in
      set_highSequence sn t
  | QualityMid =>
      let t := set_lastReadMidTS readTime t in
      let t := set_lastMidSequence (midSequence t) t in
      set_midSequence sn t
  | QualityLow =>
      let t := set_lastReadLowTS readTime t in
      let t := set_lastLowSequence (lowSequence t) t in
      set_lowSequence sn t
  | QualityOther _ => t
  end.

(** The whole closure: bookkeeping, then the fan-out to the client-tracks
    and the read-callbacks. *)
Definition AddRemoteTrack_onRead (pick : rtppool.policy) (quality : QualityLevel)
    (readTime : Z) (p : PacketPtr) (t : SimulcastTrack) : M SimulcastTrack :=
  let* pk := load p in
  let t := recordRead quality pk readTime t in
  forEach (baseTrack.clientTracks (base t)) (pushCopy pick p quality) >>
  let* packet := newPacket p in
  let* copyPacket := acquire pick in
  setHeader copyPacket (rtppool.rp_Header packet) >>
  setPayload copyPacket (rtppool.rp_Payload packet) >>
  onRead t (PoolPacket copyPacket) quality >>
  release copyPacket >>
  packetRelease packet >>
  ret t.

(** [AddRemoteTrack]: the handle returned (nil is [None]), the bundle after
    the call, and the callbacks and log lines of the call. *)
Definition AddRemoteTrack (tr : IRemoteTrack) (t : SimulcastTrack)
  : option remoteTrack * SimulcastTrack * list event :=
  let quality := RIDToQuality (rt_RID tr) in
  let remoteTrack := newRemoteTrack (reordered t) tr (pliInterval t) in
  let installed :=
    match quality with
    | QualityHigh => Some (set_remoteTrackHigh (Some remoteTrack) t)
    | QualityMid => Some (set_remoteTrackMid (Some remoteTrack) t)
    | QualityLow => Some (set_remoteTrackLow (Some remoteTrack) t)
    | QualityOther _ => None
    end in
  match installed with
  | None => (None, t, [EvWarnf "client: unknown track quality "])
  | Some t1 =>
      let completion :=
        if negb (isNil (remoteTrackHigh t1)) && negb (isNil (remoteTrackMid t1))
           && negb (isNil (remoteTrackLow t1))
        then onTrackComplete t1 else [] in
      (Some remoteTrack, t1, (completion ++ onRemoteTrackAddedCallbacks remoteTrack t1)%list)
  end.

(** The goroutine [AddRemoteTrack] starts for the slot of [quality], once
    the context of its remote track is done: the slot is cleared and the
    bundle cancelled.  This is the step of one watcher; the cancellation
    it causes lets the watchers of the other slots run as well (see
    [atRest]). *)
Definition remoteTrackDone (quality : QualityLevel) (t : SimulcastTrack)
  : SimulcastTrack * list event :=
  match quality with
  | QualityHigh => (set_cancelled true (set_remoteTrackHigh None t), [EvCancel])
  | QualityMid => (set_cancelled true (set_remoteTrackMid None t), [EvCancel])
  | QualityLow => (set_cancelled true (set_remoteTrackLow None t), [EvCancel])
  | QualityOther _ => (t, [])
  end.




Definition newSimulcastTrack (c : Client) (tr : IRemoteTrack) (pliInterval : Z)
  : SimulcastTrack * list event :=
  let '(_, t, evs) := AddRemoteTrack tr (empty c tr pliInterval) in (t, evs).

Definition getRemoteTrack (q : QualityLevel) (t : SimulcastTrack) : option remoteTrack :=
  match q with
  | QualityHigh => remoteTrackHigh t
  | QualityMid => remoteTrackMid t
  | QualityLow => remoteTrackLow t
  | QualityOther _ => None
  end.

Definition subscribe (c : Client) (t : SimulcastTrack) : iClientTrack * SimulcastTrack :=
  let ct := simulcastClientTrack c (ID t) in
  (ct, set_base (baseTrack.set_clientTracks (baseTrack.clientTracks (base t) ++ [ct]) (base t)) t).

Definition SetSourceType (sourceType : TrackType) (t : SimulcastTrack) : SimulcastTrack :=
  set_base (baseTrack.set_isScreen (String.eqb sourceType TrackTypeScreen) (base t)) t.

Definition SourceType (t : SimulcastTrack) : TrackType :=
  if baseTrack.isScreen (base t) then TrackTypeScreen else TrackTypeMedia.

Definition SetAsProcessed (t : SimulcastTrack) : SimulcastTrack :=
  set_base (baseTrack.set_isProcessed true (base t)) t.

Definition TotalTracks (t : SimulcastTrack) : Z :=
  let total := 0 in
  let total := if isNil (remoteTrackHigh t) then total else total + 1 in
  let total := if isNil (remoteTrackMid t) then total else total + 1 in
  let total := if isNil (remoteTrackLow t) then total else total + 1 in
  total.

Definition IsTrackComplete (t : SimulcastTrack) : bool := TotalTracks t =? 3.

(** The last-read time [isTrackActive] loads for a quality. *)
Definition lastReadTS (q : QualityLevel) (t : SimulcastTrack) : Z :=
  match q with
  | QualityHigh => lastReadHighTS t
  | QualityMid => lastReadMidTS t
  | QualityLow => lastReadLowTS t
  | QualityOther _ => 0
  end.

Definition threshold : Z := 500 * Millisecond.

(** [isTrackActive(quality)] when the clock reads [now]: the answer and the
    warning logged with a negative one. *)
Definition isTrackActive (now : Z) (quality : QualityLevel) (t : SimulcastTrack)
  : bool * list event :=
  match quality with
  | QualityHigh =>
      if isNil (remoteTrackHigh t) then (false, [EvWarnf "track: remote track high is nil"])
      else
        let delta := time_Since now (lastReadHighTS t) in
        if delta >? threshold
        then (false, [EvWarnf "track: remote track %s high is not active, last read was %d ms ago"])
        else (true, [])
  | QualityMid =>
      if isNil (remoteTrackMid t) then (false, [EvWarnf "track: remote track medium is nil"])
      else
        let delta := time_Since now (lastReadMidTS t) in
        if delta >? threshold
        then (false, [EvWarnf "track: remote track %s mid is not active, last read was %d ms ago"])
        else (true, [])
  | QualityLow =>
      if isNil (remoteTrackLow t) then (false, [EvWarnf "track: remote track low is nil"])
      else
        let delta := time_Since now (lastReadLowTS t) in
        if delta >? threshold
        then (false, [EvWarnf "track: remote track %s low is not active, last read was %d ms ago"])
        else (true, [])
  | QualityOther _ => (false, [])
  end.

Definition sendPLI (t : SimulcastTrack) : list event :=
  ((match remoteTrackHigh t with
   | Some rt => remoteTrack_sendPLI rt
   | None => [EvWarnf "track: remote track high is nil"]
   end) ++
  (match remoteTrackMid t with
   | Some rt => remoteTrack_sendPLI rt
   | None => [EvWarnf "track: remote track mid is nil"]
   end) ++
  (match remoteTrackLow t with
   | Some rt => remoteTrack_sendPLI rt
   | None => [EvWarnf "track: remote track low is nil"]
   end))%list.

(** The per-quality accessors: the nil check, then the dereference. *)
Definition SSRCHigh (t : SimulcastTrack) : result Z :=
  if isNil (remoteTrackHigh t) then Returns 0
  else andThen (deref (remoteTrackHigh t)) (fun rt => Returns (rt_SSRC (remoteTrack_Track rt))).

Definition SSRCMid (t : SimulcastTrack) : result Z :=
  if isNil (remoteTrackMid t) then Returns 0
  else andThen (deref (remoteTrackMid t)) (fun rt => Returns (rt_SSRC (remoteTrack_Track rt))).

Definition SSRCLow (t : SimulcastTrack) : result Z :=
  if isNil (remoteTrackLow t) then Returns 0
  else andThen (deref (remoteTrackLow t)) (fun rt => Returns (rt_SSRC (remoteTrack_Track rt))).

Definition RIDHigh (t : SimulcastTrack) : result string :=
  if isNil (remoteTrackHigh t) then Returns ""
  else andThen (deref (remoteTrackHigh t)) (fun rt => Returns (rt_RID (track rt))).

Definition RIDMid (t : SimulcastTrack) : result string :=
  if isNil (remoteTrackMid t) then Returns ""
  else andThen (deref (remoteTrackMid t)) (fun rt => Returns (rt_RID (track rt))).

Definition RIDLow (t : SimulcastTrack) : result string :=
  if isNil (remoteTrackLow t) then Returns ""
  else andThen (deref (remoteTrackLow t)) (fun rt => Returns (rt_RID (track rt))).

Definition IsRelay (t : SimulcastTrack) : bool :=
  match remoteTrackHigh t with
  | Some high => remoteTrack_IsRelay high
  | None =>
      match remoteTrackMid t with
      | Some mid => remoteTrack_IsRelay mid
      | None =>
          match remoteTrackLow t with
          | Some low => remoteTrack_IsRelay low
          | None => false
          end
      end
  end.

(** A caller of the bundle: encodings arrive, remote tracks end, completion
    callbacks are registered, one call after the other. *)
Inductive action :=
| ActAdd (tr : IRemoteTrack)            (* t.AddRemoteTrack(tr, ...) *)
| ActDone (quality : QualityLevel)      (* the remote track of the slot ends *)
| ActOnTrackComplete (f : callback).    (* t.OnTrackComplete(f) *)

Definition step (a : action) (t : SimulcastTrack) : SimulcastTrack * list event :=
  match a with
  | ActAdd tr => let r := AddRemoteTrack tr t in (state r, events r)
  | ActDone quality => remoteTrackDone quality t
  | ActOnTrackComplete f => (OnTrackComplete f t, [])
  end.

Fixpoint run (l : list action) (t : SimulcastTrack) : SimulcastTrack * list event :=
  match l with
  | [] => (t, [])
  | a :: rest =>
      let '(t1, e1) := step a t in
      let '(t2, e2) := run rest t1 in
      (t2, (e1 ++ e2)%list)
  end.


End SimulcastTrack.

(** ** The track registry *)

Inductive error := ErrTrackExists | ErrTrackIsNotExists.

(** An [ITrack] held by the registry: the address of the [*Track] or
    [*SimulcastTrack] behind the interface, its dynamic type, and the id
    [ID()] returns (fixed at construction). *)
Record ITrack := mkITrack {
  it_addr : nat;
  it_simulcast : bool;
  ID : string
}.

Module trackList.

Record trackList := mk { tracks : gmap string ITrack }.

Definition newTrackList : trackList := mk ∅.

(** [Add]: the registry after the call, the error, and what was logged. *)
Definition Add (tr : ITrack) (t : trackList) : trackList * option error * list event :=
  let id := ID tr in
  match tracks t !! id with
  | Some _ => (t, Some ErrTrackExists, [EvWarnf "tracklist: track already added "])
  | None => (mk (<[id := tr]> (tracks t)), None, [])
  end.

Definition Get (id : string) (t : trackList) : option ITrack * option error :=
  match tracks t !! id with
  | Some tr => (Some tr, None)
  | None => (None, Some ErrTrackIsNotExists)
  end.

Fixpoint remove (ids : list string) (t : trackList) : trackList :=
  match ids with
  | [] => t
  | id :: rest => remove rest (mk (delete id (tracks t)))
  end.

Definition Reset (t : trackList) : trackList := mk ∅.

Definition Length (t : trackList) : nat := size (tracks t).

(** [GetTracks]: the tracks of the registry.  Go ranges over the map in no
    fixed order; the model lists them in the order of the finite map. *)
Definition GetTracks (t : trackList) : list ITrack := (map_to_list (tracks t)).*2.

(** A client of the registry: requests served one after the other. *)
Inductive request :=
| ReqAdd (tr : ITrack)              (* t.Add(tr), the error dropped *)
| ReqRemove (ids : list string)     (* t.remove(ids) *)
| ReqReset.                         (* t.Reset() *)

Definition serve (r : request) (t : trackList) : trackList :=
  match r with
  | ReqAdd tr => fst (fst (Add tr t))
  | ReqRemove ids => remove ids t
  | ReqReset => Reset t
  end.

Fixpoint serveAll (l : list request) (t : trackList) : trackList :=
  match l with
  | [] => t
  | r :: rest => serveAll rest (serve r t)
  end.

(** The registry a call leaves behind, and the error it returns. *)
Definition after {A B : Type} (r : trackList * A * B) : trackList := fst (fst r).
Definition err {A B : Type} (r : trackList * A * B) : A := snd (fst r).

End trackList.

(** ** Reading a trace *)

(** How many times [onTrackComplete] was entered. *)
Fixpoint completions (evs : list event) : Z :=
  match evs with
  | [] => 0
  | EvOnTrackComplete :: rest => 1 + completions rest
  | _ :: rest => completions rest
  end.

(** The read-callbacks called, each with the pointer it was given. *)
Fixpoint callbackArgs (evs : list event) : list (callback * PacketPtr) :=
  match evs with
  | [] => []
  | EvReadCallback f p _ _ :: rest => (f, p) :: callbackArgs rest
  | _ :: rest => callbackArgs rest
  end.

(** The buffers acquired from the pool, in order. *)
Fixpoint acquired (evs : list event) : list nat :=
  match evs with
  | [] => []
  | EvAcquire b :: rest => b :: acquired rest
  | _ :: rest => acquired rest
  end.

Definition isWarning (e : event) : bool :=
  match e with
  | EvWarnf _ => true
  | _ => false
  end.

(** The pushes to client-tracks: the client-track, the pointer, what it
    pointed to, and the quality tag. *)
Fixpoint pushArgs (evs : list event)
  : list (iClientTrack * PacketPtr * rtpPacket * QualityLevel) :=
  match evs with
  | [] => []
  | EvPush ct p pk q :: rest => (ct, p, pk, q) :: pushArgs rest
  | _ :: rest => pushArgs rest
  end.

(** The read-callbacks called, with the packet each one saw and its tag. *)
Fixpoint callbackSaw (evs : list event) : list (callback * rtpPacket * QualityLevel) :=
  match evs with
  | [] => []
  | EvReadCallback f _ pk q :: rest => (f, pk, q) :: callbackSaw rest
  | _ :: rest => callbackSaw rest
  end.

(** The buffers given back to the pool, in order. *)
Fixpoint released (evs : list event) : list nat :=
  match evs with
  | [] => []
  | EvRelease b :: rest => b :: released rest
  | _ :: rest => released rest
  end.

(** The calls of remote-track-added callbacks and of completion callbacks. *)
Fixpoint addedCalls (evs : list event) : list (callback * remoteTrack) :=
  match evs with
  | [] => []
  | EvRemoteTrackAddedCallback f rt :: rest => (f, rt) :: addedCalls rest
  | _ :: rest => addedCalls rest
  end.

Fixpoint completionCalls (evs : list event) : list callback :=
  match evs with
  | [] => []
  | EvTrackCompleteCallback f :: rest => f :: completionCalls rest
  | _ :: rest => completionCalls rest
  end.

(** The SSRCs a PLI was requested for, and the number of warnings logged. *)
Fixpoint plis (evs : list event) : list Z :=
  match evs with
  | [] => []
  | EvSendPLI ssrc :: rest => ssrc :: plis rest
  | _ :: rest => plis rest
  end.

Definition warnings (evs : list event) : Z :=
  Z.of_nat (length (List.filter isWarning evs)).

(** A buffer that is in use: handed out, and not back in the pool. *)
Definition live (b : nat) (pl : rtppool.Pool) : Prop :=
  (b ∉ rtppool.free pl) /\ (b < rtppool.next pl)%nat.

(** A pool in order: no buffer is in the free list twice, and every free
    buffer has been handed out before. *)
Definition pool_wf (pl : rtppool.Pool) : Prop :=
  NoDup (rtppool.free pl) /\ forall b, b ∈ rtppool.free pl -> (b < rtppool.next pl)%nat.

(** ** Concrete inputs *)

Definition publisher : Client := mkClient "publisher" false.
Definition subscriber : Client := mkClient "subscriber" true.
Definition vp8 : RTPCodecParameters := mkCodec "video/VP8" 96.
Definition vp9 : RTPCodecParameters := mkCodec "video/VP9" 98.
Definition red : RTPCodecParameters := mkCodec "audio/red" 63.

(** An encoding of the camera track "cam" with the given RID. *)
Definition encoding (rid : string) (ssrc : Z) (relay : bool) : IRemoteTrack :=
  mkIRemoteTrack "cam" rid "msid" "stream" RTPCodecTypeVideo vp8 ssrc relay.

(** A bundle created from its low encoding. *)
Definition bundle_low : SimulcastTrack.SimulcastTrack :=
  fst (SimulcastTrack.newSimulcastTrack publisher (encoding "low" 1 false) 1000).

(** A bundle with no encoding yet and one completion callback. *)
Definition bundle_empty : SimulcastTrack.SimulcastTrack :=
  SimulcastTrack.OnTrackComplete 7%nat (SimulcastTrack.empty publisher (encoding "low" 1 false) 1000).

(** A bundle whose high encoding is local and whose mid encoding is relayed. *)
Definition bundle_mixed : SimulcastTrack.SimulcastTrack :=
  state (SimulcastTrack.AddRemoteTrack (encoding "mid" 2 true)
           (fst (SimulcastTrack.newSimulcastTrack publisher (encoding "high" 3 false) 1000))).

Definition track_abc : ITrack := mkITrack 1 false "abc".
Definition track_abc' : ITrack := mkITrack 2 true "abc".


(** A single-encoding track with one subscriber and two read-callbacks, and
    a world in which the read loop holds one packet. *)
Definition track_two_callbacks : Track.Track :=
  Track.OnRead 2%nat (Track.OnRead 1%nat
    (state (Track.subscribe subscriber
              (Track.newTrack publisher false (encoding "" 9 false) 1000)))).

Definition packet_1000 : rtpPacket := mkPacket (mkHeader 1000 90000 9 true) [1; 2; 3].

Definition world_one_packet : World :=
  mkWorld rtppool.empty {[ 0%nat := packet_1000 ]} [].

Definition track_of (kind : RTPCodecType) (c : RTPCodecParameters) : Track.Track :=
  Track.newTrack publisher false
    (mkIRemoteTrack "mic" "" "msid" "stream" kind c 5 false) 1000.

(** * Properties *)

(** ** [RIDToQuality] never leaves the three named levels *)

Lemma RIDToQuality_other (RID : string) :
  RID <> "high" -> RID <> "mid" -> RIDToQuality RID = QualityLow.
Proof.
  intros Hh Hm. unfold RIDToQuality.
  apply String.eqb_neq in Hh. apply String.eqb_neq in Hm.
  now rewrite Hh, Hm.
Qed.

Lemma RIDToQuality_named (RID : string) :
  RIDToQuality RID = QualityHigh \/ RIDToQuality RID = QualityMid \/
  RIDToQuality RID = QualityLow.
Proof.
  unfold RIDToQuality.
  destruct (String.eqb RID "high"); [now left|].
  destruct (String.eqb RID "mid"); [now right; left | now right; right].
Qed.

(** C9: "high" maps to QualityHigh, "mid" to QualityMid, and every other
    string, the empty one included, to QualityLow. *)
Theorem RIDToQuality_spec :
  RIDToQuality "high" = QualityHigh /\
  RIDToQuality "mid" = QualityMid /\
  RIDToQuality "" = QualityLow /\
  forall RID : string, RID <> "high" -> RID <> "mid" -> RIDToQuality RID = QualityLow.
Proof.
  split; [reflexivity|]. split; [reflexivity|]. split.
  - apply RIDToQuality_other; discriminate.
  - exact RIDToQuality_other.
Qed.

Lemma RIDToQuality_spec_witness :
  RIDToQuality "low" = QualityLow /\ RIDToQuality "q" = QualityLow.
Proof.
  split; apply (proj2 (proj2 (proj2 RIDToQuality_spec))); discriminate.
Defined.

(** ** The registry *)

Section Registry.
Import trackList.

Lemma tracks_remove (ids : list string) (t : trackList) (id : string) :
  tracks (remove ids t) !! id =
  if bool_decide (id ∈ ids) then None else tracks t !! id.
Proof.
  revert t. induction ids as [|i ids IH]; intros t; cbn [remove].
  - rewrite bool_decide_eq_false_2; [done | apply not_elem_of_nil].
  - rewrite IH. cbn [tracks].
    destruct (decide (i = id)) as [->|Hne].
    + rewrite lookup_delete_eq.
      rewrite (bool_decide_eq_true_2 (id ∈ id :: ids)) by left.
      by destruct (bool_decide (id ∈ ids)).
    + rewrite lookup_delete_ne by done.
      destruct (decide (id ∈ ids)) as [Hin|Hnin].
      * rewrite !bool_decide_eq_true_2; [done | by right | done].
      * rewrite !bool_decide_eq_false_2; [done | | done].
        intros [->|?]%elem_of_cons; done.
Qed.

(** C7: after a successful Add of a track, a second Add of a track with
    the same id returns TrackExists and leaves the registry as it was,
    and Get still returns the first handle. *)
Theorem Add_duplicate_rejected (t : trackList) (first second : ITrack) :
  err (Add first t) = None ->
  ID second = ID first ->
  let t1 := after (Add first t) in
  err (Add second t1) = Some ErrTrackExists /\
  after (Add second t1) = t1 /\
  Get (ID first) (after (Add second t1)) = (Some first, None).
Proof.
  intros Hok Hid. unfold Add, after, err in *. rewrite Hid.
  destruct (tracks t !! ID first) eqn:E; simpl in *; [discriminate|].
  rewrite lookup_insert_eq. simpl.
  unfold Get. simpl. by rewrite lookup_insert_eq.
Qed.


End Registry.

Lemma Add_duplicate_rejected_witness :
trackList.err (trackList.Add track_abc' (trackList.after (trackList.Add track_abc trackList.newTrackList)))
  = Some ErrTrackExists /\
trackList.Get "abc"
  (trackList.after (trackList.Add track_abc' (trackList.after (trackList.Add track_abc trackList.newTrackList))))
  = (Some track_abc, None).
Proof.
pose proof (Add_duplicate_rejected trackList.newTrackList track_abc track_abc'
              eq_refl eq_refl) as H.
simpl in H. destruct H as (H1 & _ & H3). split; [exact H1 | exact H3].
Defined.



(** ** The simulcast bundle *)

Section Simulcast.
Import SimulcastTrack.

Lemma AddRemoteTrack_never_nil (tr : IRemoteTrack) (t : SimulcastTrack) :
  returned (AddRemoteTrack tr t) = Some (newRemoteTrack (reordered t) tr (pliInterval t)).
Proof.
  unfold AddRemoteTrack.
  destruct (RIDToQuality_named (rt_RID tr)) as [-> | [-> | ->]]; reflexivity.
Qed.

Lemma completions_app (a b : list event) :
  completions (a ++ b) = completions a + completions b.
Proof.
  induction a as [|e a IH]; [reflexivity|].
  destruct e; simpl; rewrite ?IH; lia.
Qed.

Lemma completions_map_added (rt : remoteTrack) (l : list callback) :
  completions (map (fun f => EvRemoteTrackAddedCallback f rt) l) = 0.
Proof. induction l; simpl; auto. Qed.

Lemma completions_map_complete (l : list callback) :
  completions (map EvTrackCompleteCallback l) = 0.
Proof. induction l; simpl; auto. Qed.

Lemma completions_onTrackComplete (t : SimulcastTrack) :
  completions (onTrackComplete t) = 1.
Proof. unfold onTrackComplete. simpl. rewrite completions_map_complete. lia. Qed.

Lemma IsTrackComplete_slots (t : SimulcastTrack) :
  IsTrackComplete t =
  negb (isNil (remoteTrackHigh t)) && negb (isNil (remoteTrackMid t))
  && negb (isNil (remoteTrackLow t)).
Proof.
  unfold IsTrackComplete, TotalTracks.
  destruct (remoteTrackHigh t), (remoteTrackMid t), (remoteTrackLow t); reflexivity.
Qed.

Lemma completions_onRemoteTrackAddedCallbacks (rt : remoteTrack) (t : SimulcastTrack) :
  completions (onRemoteTrackAddedCallbacks rt t) = 0.
Proof. unfold onRemoteTrackAddedCallbacks. apply completions_map_added. Qed.

Lemma completions_AddRemoteTrack (tr : IRemoteTrack) (t : SimulcastTrack) :
  completions (events (AddRemoteTrack tr t)) =
  if IsTrackComplete (state (AddRemoteTrack tr t)) then 1 else 0.
Proof.
  rewrite IsTrackComplete_slots. unfold AddRemoteTrack.
  destruct (RIDToQuality_named (rt_RID tr)) as [-> | [-> | ->]];
    cbn [events state snd fst];
    rewrite completions_app, completions_onRemoteTrackAddedCallbacks;
    match goal with
    | |- context [if ?b then onTrackComplete _ else _] =>
        destruct b; [rewrite completions_onTrackComplete | ]; reflexivity
    end.
Qed.

Lemma TotalTracks_range (t : SimulcastTrack) : 0 <= TotalTracks t <= 3.
Proof.
  unfold TotalTracks.
  destruct (remoteTrackHigh t), (remoteTrackMid t), (remoteTrackLow t); simpl; lia.
Qed.

Lemma AddRemoteTrack_other_slots (tr : IRemoteTrack) (t : SimulcastTrack) (q : QualityLevel) :
  q <> RIDToQuality (rt_RID tr) ->
  getRemoteTrack q (state (AddRemoteTrack tr t)) = getRemoteTrack q t.
Proof.
  unfold AddRemoteTrack.
  destruct (RIDToQuality_named (rt_RID tr)) as [-> | [-> | ->]];
    intros Hq; destruct q; try reflexivity; congruence.
Qed.

Lemma AddRemoteTrack_fills_empty (tr : IRemoteTrack) (t : SimulcastTrack) :
  getRemoteTrack (RIDToQuality (rt_RID tr)) t = None ->
  TotalTracks (state (AddRemoteTrack tr t)) = TotalTracks t + 1.
Proof.
  unfold AddRemoteTrack.
  destruct (RIDToQuality_named (rt_RID tr)) as [-> | [-> | ->]];
    cbn [getRemoteTrack state fst snd]; intros Hq; unfold TotalTracks;
    cbn; rewrite Hq;
    destruct (remoteTrackHigh t), (remoteTrackMid t), (remoteTrackLow t);
    try discriminate; reflexivity.
Qed.

Lemma TotalTracks_zero (t : SimulcastTrack) (q : QualityLevel) :
  TotalTracks t = 0 -> getRemoteTrack q t = None.
Proof.
  unfold TotalTracks.
  destruct q, (remoteTrackHigh t) eqn:?, (remoteTrackMid t) eqn:?, (remoteTrackLow t) eqn:?;
    simpl; intros; try lia; auto.
Qed.

Lemma run_adds_distinct (trs : list IRemoteTrack) (t : SimulcastTrack) :
  NoDup (map (fun tr => RIDToQuality (rt_RID tr)) trs) ->
  (forall tr, In tr trs -> getRemoteTrack (RIDToQuality (rt_RID tr)) t = None) ->
  TotalTracks (fst (run (map ActAdd trs) t)) = TotalTracks t + Z.of_nat (length trs) /\
  completions (snd (run (map ActAdd trs) t)) =
    if negb (Nat.eqb (length trs) 0) && (TotalTracks (fst (run (map ActAdd trs) t)) =? 3)
    then 1 else 0.
Proof.
  revert t. induction trs as [|a rest IH]; intros t Hnd Hempty.
  - simpl. split; [lia | reflexivity].
  - apply NoDup_cons in Hnd as [Hnotin Hnd].
    cbn [map run step].
    pose proof (AddRemoteTrack_fills_empty a t (Hempty a (or_introl eq_refl))) as Htot.
    pose proof (completions_AddRemoteTrack a t) as Hc.
    set (t1 := state (AddRemoteTrack a t)) in *.
    destruct (IH t1 Hnd) as [IHt IHc].
    { intros tr Htr. unfold t1. rewrite AddRemoteTrack_other_slots.
      - apply Hempty. now right.
      - intros Heq. apply Hnotin. rewrite <- Heq.
        apply list_elem_of_In. apply in_map_iff. now exists tr. }
    destruct (run (map ActAdd rest) t1) as [t2 e2] eqn:Hrun.
    cbn [fst snd] in *. rewrite completions_app, Hc, IHc, IHt, Htot.
    split; [cbn [length]; lia|].
    pose proof (TotalTracks_range t2) as Hr. rewrite IHt, Htot in Hr.
    unfold IsTrackComplete. rewrite Htot.
    destruct rest as [|b rest']; cbn [length Nat.eqb negb andb] in *.
    + replace (TotalTracks t + 1 + Z.of_nat 0) with (TotalTracks t + 1) by lia.
      destruct (TotalTracks t + 1 =? 3); reflexivity.
    + destruct (TotalTracks t + 1 =? 3) eqn:E1; [lia|].
      destruct (_ =? 3); reflexivity.
Qed.


(** C1 (as the code has it): an encoding whose RID is neither "high" nor
    "mid" is taken as the low encoding; AddRemoteTrack installs it in the
    low slot, leaves the other two slots alone, logs no warning and
    returns the handle of the new remote track; and for no RID at all does
    AddRemoteTrack return nil. *)
Theorem AddRemoteTrack_other_RID_is_low (tr : IRemoteTrack) (t : SimulcastTrack) :
  rt_RID tr <> "high" -> rt_RID tr <> "mid" ->
  let rt := newRemoteTrack (reordered t) tr (pliInterval t) in
  returned (AddRemoteTrack tr t) = Some rt /\
  remoteTrackLow (state (AddRemoteTrack tr t)) = Some rt /\
  remoteTrackHigh (state (AddRemoteTrack tr t)) = remoteTrackHigh t /\
  remoteTrackMid (state (AddRemoteTrack tr t)) = remoteTrackMid t /\
  existsb isWarning (events (AddRemoteTrack tr t)) = false /\
  (forall (tr' : IRemoteTrack) (t' : SimulcastTrack),
      returned (AddRemoteTrack tr' t') <> None).
Proof.
  intros Hh Hm rt.
  assert (Hnil : forall tr' t', returned (AddRemoteTrack tr' t') <> None).
  { intros tr' t'. now rewrite AddRemoteTrack_never_nil. }
  unfold AddRemoteTrack. rewrite (RIDToQuality_other _ Hh Hm).
  cbn [returned state events fst snd].
  repeat split; auto.
  rewrite existsb_app.
  assert (Hadded : forall l, existsb isWarning
            (map (fun f => EvRemoteTrackAddedCallback f rt) l) = false).
  { induction l; simpl; auto. }
  assert (Hdone : forall l, existsb isWarning (map EvTrackCompleteCallback l) = false).
  { induction l; simpl; auto. }
  unfold onRemoteTrackAddedCallbacks. fold rt. rewrite Hadded, orb_false_r.
  match goal with |- context [if ?b then _ else _] => destruct b end;
    [unfold onTrackComplete; simpl; apply Hdone | reflexivity].
Qed.

Lemma AddRemoteTrack_other_RID_is_low_witness :
  returned (AddRemoteTrack (encoding "q" 4 false) bundle_empty)
    = Some (newRemoteTrack false (encoding "q" 4 false) 1000) /\
  remoteTrackLow (state (AddRemoteTrack (encoding "q" 4 false) bundle_empty))
    = Some (newRemoteTrack false (encoding "q" 4 false) 1000).
Proof.
  pose proof (AddRemoteTrack_other_RID_is_low (encoding "q" 4 false) bundle_empty) as H.
  destruct H as (H1 & H2 & _); [discriminate | discriminate |].
  split; [exact H1 | exact H2].
Defined.

(** C1 (as stated) fails: an encoding with the RID "foo", which is neither
    "high" nor "mid", is not rejected; the call returns the handle of a new
    remote track, which now sits in the low slot. *)
Lemma AddRemoteTrack_unknown_RID_not_rejected :
  rt_RID (encoding "foo" 4 false) <> "high" /\
  rt_RID (encoding "foo" 4 false) <> "mid" /\
  returned (AddRemoteTrack (encoding "foo" 4 false) bundle_empty)
    = Some (newRemoteTrack false (encoding "foo" 4 false) 1000) /\
  returned (AddRemoteTrack (encoding "foo" 4 false) bundle_empty) <> None /\
  remoteTrackLow (state (AddRemoteTrack (encoding "foo" 4 false) bundle_empty))
    = Some (newRemoteTrack false (encoding "foo" 4 false) 1000).
Proof. repeat split; discriminate. Qed.

(** C3 (as the code has it): IsRelay is the relay flag of the first occupied
    slot in the order high, mid, low, and false for a bundle with no
    encoding.  Hence a true answer always comes from an occupied slot that
    is a relay, and a bundle none of whose encodings is a relay answers
    false; a relay behind an occupied higher slot that is not one is not
    reported. *)
Theorem IsRelay_first_occupied (t : SimulcastTrack) :
  (IsRelay t = true <->
     (exists rt, remoteTrackHigh t = Some rt /\ remoteTrack_IsRelay rt = true) \/
     (remoteTrackHigh t = None /\
      exists rt, remoteTrackMid t = Some rt /\ remoteTrack_IsRelay rt = true) \/
     (remoteTrackHigh t = None /\ remoteTrackMid t = None /\
      exists rt, remoteTrackLow t = Some rt /\ remoteTrack_IsRelay rt = true)) /\
  (IsRelay t = true ->
     exists q rt, getRemoteTrack q t = Some rt /\ remoteTrack_IsRelay rt = true) /\
  ((forall q rt, getRemoteTrack q t = Some rt -> remoteTrack_IsRelay rt = false) ->
     IsRelay t = false).
Proof.
  unfold IsRelay.
  destruct (remoteTrackHigh t) as [h|] eqn:Hh;
    [|destruct (remoteTrackMid t) as [m|] eqn:Hm;
      [|destruct (remoteTrackLow t) as [l|] eqn:Hl]].
  - split; [split|split].
    + intros H. left. eauto.
    + intros [(rt & [= <-] & H) | [(? & _) | (? & _)]]; [exact H | discriminate..].
    + intros H. exists QualityHigh, h. now rewrite <- Hh in *.
    + intros H. apply (H QualityHigh). exact Hh.
  - split; [split|split].
    + intros H. right. left. eauto.
    + intros [(rt & ? & _) | [(_ & rt & [= <-] & H) | (_ & ? & _)]];
        [discriminate | exact H | discriminate].
    + intros H. exists QualityMid, m. now rewrite <- Hm in *.
    + intros H. apply (H QualityMid). exact Hm.
  - split; [split|split].
    + intros H. right. right. eauto.
    + intros [(rt & ? & _) | [(_ & rt & ? & _) | (_ & _ & rt & [= <-] & H)]];
        [discriminate | discriminate | exact H].
    + intros H. exists QualityLow, l. now rewrite <- Hl in *.
    + intros H. apply (H QualityLow). exact Hl.
  - split; [split|split]; try discriminate; auto.
    intros [(rt & ? & _) | [(_ & rt & ? & _) | (_ & _ & rt & ? & _)]]; discriminate.
Qed.

Lemma IsRelay_first_occupied_witness :
  IsRelay bundle_mixed = false /\ IsRelay bundle_low = false.
Proof.
  split.
  - reflexivity.
  - apply (proj2 (proj2 (IsRelay_first_occupied bundle_low))).
    intros q rt. destruct q; simpl; intros [= <-]; reflexivity.
Defined.

(** C3 (as stated) fails: in a bundle whose high encoding is local and whose
    mid encoding is relayed, an occupied slot holds a relay and IsRelay
    still answers false. *)
Lemma IsRelay_misses_lower_relay :
  (exists rt, getRemoteTrack QualityMid bundle_mixed = Some rt /\
              remoteTrack_IsRelay rt = true) /\
  IsRelay bundle_mixed = false.
Proof. split; [eexists; split; reflexivity | reflexivity]. Qed.

(** C4 (as the code has it): a call of AddRemoteTrack enters
    onTrackComplete once when the three slots are occupied after the new
    remote track is installed, and not at all otherwise.  So when
    encodings of pairwise different qualities are added to a bundle with
    no encoding, the signal fires exactly once if three were added, in the
    call that fills the third slot, and never while fewer are present. *)
Theorem onTrackComplete_fires_when_full (t : SimulcastTrack) (trs : list IRemoteTrack) :
  TotalTracks t = 0 ->
  NoDup (map (fun tr => RIDToQuality (rt_RID tr)) trs) ->
  (forall (tr : IRemoteTrack) (t0 : SimulcastTrack),
      completions (events (AddRemoteTrack tr t0)) =
      if IsTrackComplete (state (AddRemoteTrack tr t0)) then 1 else 0) /\
  TotalTracks (fst (run (map ActAdd trs) t)) = Z.of_nat (length trs) /\
  completions (snd (run (map ActAdd trs) t)) = (if Nat.eqb (length trs) 3 then 1 else 0) /\
  (forall n, (n < length trs)%nat ->
      completions (snd (run (map ActAdd (take n trs)) t)) = 0).
Proof.
  intros Hzero Hnd. split; [exact completions_AddRemoteTrack|].
  assert (Hrun : forall l, NoDup (map (fun tr => RIDToQuality (rt_RID tr)) l) ->
            TotalTracks (fst (run (map ActAdd l) t)) = Z.of_nat (length l) /\
            completions (snd (run (map ActAdd l) t)) =
              if Nat.eqb (length l) 3 then 1 else 0).
  { intros l Hl.
    destruct (run_adds_distinct l t Hl) as [Ht Hc].
    { intros tr _. now apply TotalTracks_zero. }
    rewrite Hzero in Ht. split; [lia|].
    rewrite Hc, Ht.
    pose proof (TotalTracks_range (fst (run (map ActAdd l) t))) as Hr.
    destruct l as [|a [|b [|c [|d l]]]]; cbn [length] in *; try reflexivity.
    lia. }
  destruct (Hrun trs Hnd) as [Ht Hc]. repeat split; [exact Ht | exact Hc |].
  intros n Hn.
  assert (Hprefix : NoDup (map (fun tr => RIDToQuality (rt_RID tr)) (take n trs))).
  { pose proof Hnd as Hsplit.
    rewrite <- (take_drop n (map _ trs)) in Hsplit.
    apply NoDup_app in Hsplit as [Htake _].
    now rewrite firstn_map in Htake. }
  destruct (Hrun (take n trs) Hprefix) as [Ht' Hc'].
  rewrite Hc'.
  pose proof (TotalTracks_range (fst (run (map ActAdd trs) t))) as Hr.
  rewrite Ht in Hr. rewrite length_take.
  destruct (Nat.eqb_spec (n `min` length trs) 3); [lia | reflexivity].
Qed.

Lemma time_Since_within (now ts : Z) :
  (time_Since now ts >? threshold) = false <-> now - ts <= 500 * Millisecond.
Proof.
  unfold time_Since, Time_Sub, threshold, maxDuration, minDuration, Millisecond.
  change (2 ^ 63) with 9223372036854775808.
  destruct (now - ts >? _) eqn:E1; [|destruct (now - ts <? _) eqn:E2]; lia.
Qed.

Lemma isTrackActive_empty (now : Z) (q : QualityLevel) (t : SimulcastTrack) :
  getRemoteTrack q t = None -> fst (isTrackActive now q t) = false.
Proof.
  unfold isTrackActive. destruct q; cbn [getRemoteTrack]; intros H; rewrite ?H; reflexivity.
Qed.

Lemma isTrackActive_occupied (now : Z) (q : QualityLevel) (t : SimulcastTrack) :
  getRemoteTrack q t <> None ->
  fst (isTrackActive now q t) = negb (time_Since now (lastReadTS q t) >? threshold).
Proof.
  unfold isTrackActive.
  destruct q; cbn [getRemoteTrack lastReadTS]; intros Hslot; try congruence;
    match goal with
    | |- context [isNil ?slot] => destruct slot; [cbn [isNil] | congruence]
    end;
    match goal with
    | |- context [if ?b then _ else _] => destruct b; reflexivity
    end.
Qed.

(** C6: isTrackActive(q) answers true exactly when the slot of q is
    occupied and the time since the last read of q is at most 500 ms. *)
Theorem isTrackActive_iff (now : Z) (q : QualityLevel) (t : SimulcastTrack) :
  fst (isTrackActive now q t) = true <->
  getRemoteTrack q t <> None /\ now - lastReadTS q t <= 500 * Millisecond.
Proof.
  destruct (getRemoteTrack q t) as [rt|] eqn:Hslot.
  - rewrite isTrackActive_occupied by congruence.
    rewrite negb_true_iff, time_Since_within. split; [split; [discriminate | assumption] | tauto].
  - rewrite isTrackActive_empty by assumption. split; [discriminate | intros [H _]; congruence].
Qed.

(** C10: the six per-quality accessors always return (they never
    dereference a nil slot), and for an empty slot the SSRC accessor
    returns 0 and the RID accessor the empty string. *)
Theorem accessors_of_empty_slots (t : SimulcastTrack) :
  ((exists v, SSRCHigh t = Returns v) /\ (exists v, SSRCMid t = Returns v) /\
   (exists v, SSRCLow t = Returns v) /\ (exists v, RIDHigh t = Returns v) /\
   (exists v, RIDMid t = Returns v) /\ (exists v, RIDLow t = Returns v)) /\
  (remoteTrackHigh t = None -> SSRCHigh t = Returns 0 /\ RIDHigh t = Returns "") /\
  (remoteTrackMid t = None -> SSRCMid t = Returns 0 /\ RIDMid t = Returns "") /\
  (remoteTrackLow t = None -> SSRCLow t = Returns 0 /\ RIDLow t = Returns "").
Proof.
  unfold SSRCHigh, SSRCMid, SSRCLow, RIDHigh, RIDMid, RIDLow.
  destruct (remoteTrackHigh t), (remoteTrackMid t), (remoteTrackLow t);
    cbn [isNil deref andThen];
    repeat split; eauto; discriminate.
Qed.

Lemma NoDup_three_qualities : NoDup [QualityLow; QualityMid; QualityHigh].
Proof.
  repeat (apply NoDup_cons_2 || apply NoDup_nil_2);
    intros H; repeat (apply elem_of_cons in H as [H|H]; [discriminate|]);
    now apply elem_of_nil in H.
Qed.

Lemma onTrackComplete_fires_when_full_witness :
  completions (snd (run (map ActAdd
     [encoding "low" 1 false; encoding "mid" 2 false; encoding "high" 3 false])
     bundle_empty)) = 1 /\
  completions (snd (run (map ActAdd
     (take 2 [encoding "low" 1 false; encoding "mid" 2 false; encoding "high" 3 false]))
     bundle_empty)) = 0.
Proof.
  destruct (onTrackComplete_fires_when_full bundle_empty
              [encoding "low" 1 false; encoding "mid" 2 false; encoding "high" 3 false]
              eq_refl NoDup_three_qualities) as (_ & _ & Hall & Hprefix).
  split; [exact Hall | apply Hprefix; simpl; lia].
Defined.

(** C4 (as stated) fails: after low, mid and high have been added the signal
    has fired once; a second high encoding added to the full bundle fires
    it again, and so does a mid encoding that is added again after the
    first one ended, as long as the watchers of the other two slots have
    not run yet. *)
Lemma onTrackComplete_fires_again :
  completions (snd (run [ActAdd (encoding "low" 1 false); ActAdd (encoding "mid" 2 false);
                         ActAdd (encoding "high" 3 false)] bundle_empty)) = 1 /\
  snd (run [ActAdd (encoding "low" 1 false); ActAdd (encoding "mid" 2 false);
            ActAdd (encoding "high" 3 false); ActAdd (encoding "high" 4 false)]
           bundle_empty)
    = [EvOnTrackComplete; EvTrackCompleteCallback 7%nat;
       EvOnTrackComplete; EvTrackCompleteCallback 7%nat] /\
  completions (snd (run [ActAdd (encoding "low" 1 false); ActAdd (encoding "mid" 2 false);
                         ActAdd (encoding "high" 3 false); ActAdd (encoding "high" 4 false)]
                        bundle_empty)) = 2 /\
  completions (snd (run [ActAdd (encoding "low" 1 false); ActAdd (encoding "mid" 2 false);
                         ActAdd (encoding "high" 3 false); ActDone QualityMid;
                         ActAdd (encoding "mid" 5 false)] bundle_empty)) = 2.
Proof. repeat split. Qed.

Lemma accessors_of_empty_slots_witness :
  SSRCHigh bundle_low = Returns 0 /\ RIDHigh bundle_low = Returns "" /\
  SSRCMid bundle_low = Returns 0 /\ RIDMid bundle_low = Returns "".
Proof.
  destruct (accessors_of_empty_slots bundle_low) as (_ & Hh & Hm & _).
  destruct (Hh eq_refl) as [H1 H2]. destruct (Hm eq_refl) as [H3 H4].
  repeat split; assumption.
Defined.

(** X13: an occupied slot on which a packet has just been read is active
    for the next 500 ms and inactive from then on, until the next read. *)
Lemma isTrackActive_after_read (q : QualityLevel) (pk : rtpPacket) (readTime now : Z)
    (t : SimulcastTrack) :
  getRemoteTrack q t <> None ->
  fst (isTrackActive now q (recordRead q pk readTime t)) = (now - readTime <=? 500 * Millisecond).
Proof.
  intros Hslot.
  assert (Hsame : getRemoteTrack q (recordRead q pk readTime t) = getRemoteTrack q t).
  { unfold recordRead. destruct q; cbn [getRemoteTrack];
      repeat match goal with |- context [if ?b then _ else _] => destruct b end;
      reflexivity. }
  assert (Hts : lastReadTS q (recordRead q pk readTime t) = readTime).
  { unfold recordRead. destruct q; cbn [getRemoteTrack lastReadTS] in *;
      try reflexivity. congruence. }
  rewrite isTrackActive_occupied by now rewrite Hsame.
  rewrite Hts.
  destruct (now - readTime <=? 500 * Millisecond) eqn:E.
  - apply negb_true_iff, time_Since_within. lia.
  - apply negb_false_iff. apply not_false_is_true. intros H%time_Since_within. lia.
Qed.
End Simulcast.

(** ** The single-encoding track *)

Section SingleTrack.
Import Track.

Lemma RTPCodecType_eqb_eq (a b : RTPCodecType) : RTPCodecType_eqb a b = true <-> a = b.
Proof. destruct a, b; simpl; split; congruence. Qed.

(** C5: subscribe returns the scalable client-track when the MIME type is
    VP9, else the RED client-track for audio with payload type 63, else the
    plain client-track; and for a video track the call requests a PLI from
    the remote track. *)
Theorem subscribe_variant (c : Client) (t : Track) :
  (MimeType t = MimeTypeVP9 ->
     returned (subscribe c t) = scaleableClientTrack c (ID t)) /\
  (MimeType t <> MimeTypeVP9 -> Kind t = RTPCodecTypeAudio -> PayloadType t = 63 ->
     returned (subscribe c t) = clientTrackRed c (ID t)) /\
  (MimeType t <> MimeTypeVP9 -> ~ (Kind t = RTPCodecTypeAudio /\ PayloadType t = 63) ->
     returned (subscribe c t) = clientTrack c (ID t) (IsScreen t)) /\
  (Kind t = RTPCodecTypeVideo ->
     In (EvSendPLI (SSRC t)) (events (subscribe c t))) /\
  baseTrack.clientTracks (base (state (subscribe c t))) =
    (baseTrack.clientTracks (base t) ++ [returned (subscribe c t)])%list.
Proof.
  assert (Hpli : Kind t = RTPCodecTypeVideo -> forall l : list event,
            In (EvSendPLI (SSRC t))
               (l ++ (if RTPCodecType_eqb (Kind t) RTPCodecTypeVideo
                      then remoteTrack_sendPLI (remoteTrack t) else []))).
  { intros Hk l. rewrite Hk. apply in_or_app. right. now left. }
  unfold subscribe.
  destruct (String.eqb_spec (MimeType t) MimeTypeVP9) as [Hvp9|Hvp9].
  - cbn [returned state events fst snd].
    repeat split; try congruence; try (intros Hk; now apply Hpli).
  - destruct (RTPCodecType_eqb (Kind t) RTPCodecTypeAudio) eqn:Ha;
      [destruct (Z.eqb_spec (PayloadType t) 63) as [Hp|Hp]|];
      cbn [andb returned state events fst snd];
      repeat split; try congruence; try (intros Hk; now apply Hpli).
    + intros _ Hno. exfalso. apply Hno. split; [now apply RTPCodecType_eqb_eq | exact Hp].
    + intros _ Hk _. apply RTPCodecType_eqb_eq in Hk. congruence.
Qed.

Lemma subscribe_variant_witness :
  returned (subscribe subscriber (track_of RTPCodecTypeVideo vp9))
    = scaleableClientTrack subscriber "mic" /\
  returned (subscribe subscriber (track_of RTPCodecTypeAudio red))
    = clientTrackRed subscriber "mic" /\
  returned (subscribe subscriber (track_of RTPCodecTypeVideo vp8))
    = clientTrack subscriber "mic" false /\
  In (EvSendPLI 5) (events (subscribe subscriber (track_of RTPCodecTypeVideo vp8))).
Proof.
  split; [|split; [|split]].
  - apply (proj1 (subscribe_variant subscriber (track_of RTPCodecTypeVideo vp9))).
    reflexivity.
  - apply (proj1 (proj2 (subscribe_variant subscriber (track_of RTPCodecTypeAudio red))));
      [discriminate | reflexivity | reflexivity].
  - apply (proj1 (proj2 (proj2 (subscribe_variant subscriber (track_of RTPCodecTypeVideo vp8)))));
      [discriminate | intros [? _]; discriminate].
  - apply (proj1 (proj2 (proj2 (proj2
             (subscribe_variant subscriber (track_of RTPCodecTypeVideo vp8)))))).
    reflexivity.
Defined.
End SingleTrack.

(** ** The fan-out and the packet pool *)

Section FanOut.
Import Track.
Variable pick : rtppool.policy.

Lemma callbackArgs_app (a b : list event) :
  callbackArgs (a ++ b) = (callbackArgs a ++ callbackArgs b)%list.
Proof.
  induction a as [|e a IH]; [reflexivity|].
  destruct e; simpl; rewrite ?IH; reflexivity.
Qed.

Lemma acquired_app (a b : list event) :
  acquired (a ++ b) = (acquired a ++ acquired b)%list.
Proof.
  induction a as [|e a IH]; [reflexivity|].
  destruct e; simpl; rewrite ?IH; reflexivity.
Qed.

Lemma acquire_spec (pl : rtppool.Pool) :
  let b := fst (rtppool.GetPacketAllocationFromPool pick pl) in
  let pl' := snd (rtppool.GetPacketAllocationFromPool pick pl) in
  (b ∈ rtppool.free pl \/ b = rtppool.next pl) /\
  rtppool.free pl' ⊆ rtppool.free pl /\
  (rtppool.next pl <= rtppool.next pl')%nat /\
  (pool_wf pl -> pool_wf pl' /\ live b pl').
Proof.
  unfold rtppool.GetPacketAllocationFromPool.
  assert (Hfresh :
    (fst (rtppool.fresh pl) ∈ rtppool.free pl \/ fst (rtppool.fresh pl) = rtppool.next pl) /\
    rtppool.free (snd (rtppool.fresh pl)) ⊆ rtppool.free pl /\
    (rtppool.next pl <= rtppool.next (snd (rtppool.fresh pl)))%nat /\
    (pool_wf pl -> pool_wf (snd (rtppool.fresh pl)) /\
                   live (fst (rtppool.fresh pl)) (snd (rtppool.fresh pl)))).
  { cbn. split; [now right|]. split; [done|]. split; [lia|].
    intros [Hnd Hlt]. repeat split; cbn; auto.
    - intros b Hb. apply Hlt in Hb. lia.
    - intros Hin. apply Hlt in Hin. lia. }
  destruct (pick (rtppool.free pl)) as [i|]; [|exact Hfresh].
  destruct (rtppool.free pl !! i) as [b|] eqn:Hi; [|exact Hfresh].
  assert (Hsub : delete i (rtppool.free pl) ⊆ rtppool.free pl).
  { apply sublist_subseteq, sublist_delete. }
  assert (Hb : b ∈ rtppool.free pl) by (eapply list_elem_of_lookup_2; eauto).
  cbn. split; [now left|]. split; [exact Hsub|]. split; [lia|].
  intros [Hnd Hlt]. repeat split; cbn.
  - eapply sublist_NoDup; [exact Hnd | apply sublist_delete].
  - intros b' Hb'. apply Hlt, Hsub, Hb'.
  - rewrite <- (take_drop_middle _ _ _ Hi) in Hnd.
    rewrite delete_take_drop.
    apply NoDup_app in Hnd as (_ & Hd & Hnd). apply NoDup_cons in Hnd as [Hnb _].
    intros [Hin|Hin]%elem_of_app; [|contradiction].
    apply (Hd _ Hin). left.
  - apply Hlt, Hb.
Qed.

Lemma acquire_keeps_live (c0 : nat) (pl : rtppool.Pool) :
  live c0 pl ->
  fst (rtppool.GetPacketAllocationFromPool pick pl) <> c0 /\
  live c0 (rtppool.ResetPacketPoolAllocation
             (fst (rtppool.GetPacketAllocationFromPool pick pl))
             (snd (rtppool.GetPacketAllocationFromPool pick pl))).
Proof.
  intros [Hfree Hnext].
  destruct (acquire_spec pl) as (Hb & Hsub & Hle & _).
  assert (Hne : fst (rtppool.GetPacketAllocationFromPool pick pl) <> c0).
  { intros Heq. rewrite Heq in Hb. destruct Hb as [Hb|Hb]; [contradiction | lia]. }
  split; [exact Hne|]. split; cbn.
  - intros [Heq|Hin]%elem_of_cons; [congruence|]. apply Hfree, Hsub, Hin.
  - lia.
Qed.


Lemma bind_run {A B : Type} (c : M A) (k : A -> M B) (w : World) :
  bind c k w = k (fst (c w)) (snd (c w)).
Proof. unfold bind. now destruct (c w). Qed.

(** One round of the loop of [Track.onRead]. *)
Lemma onRead_body_spec (p : PacketPtr) (q : QualityLevel) (f : callback) (w : World) :
  let b := fst (rtppool.GetPacketAllocationFromPool pick (pool w)) in
  let pl := snd (rtppool.GetPacketAllocationFromPool pick (pool w)) in
  let w' := snd (onRead_body pick p q f w) in
  (exists pk, trace w' = (trace w ++ [EvAcquire b; EvReadCallback f p pk q; EvRelease b])%list) /\
  reader w' = reader w /\
  rtppool.free (pool w') = b :: rtppool.free pl /\
  rtppool.next (pool w') = rtppool.next pl.
Proof.
  unfold onRead_body, acquire, load, setHeader, setPayload, storeBuf, call, emit, release.
  rewrite !bind_run. cbn [fst snd].
  destruct (rtppool.GetPacketAllocationFromPool pick (pool w)) as [b pl].
  cbn [fst snd pool reader trace]. rewrite ?bind_run. cbn.
  split; [eexists; now rewrite <- !app_assoc | auto].
Qed.

(** One round of the loop over the client-tracks. *)
Lemma pushCopy_spec (p : PacketPtr) (q : QualityLevel) (ct : iClientTrack) (w : World) :
  let b := fst (rtppool.GetPacketAllocationFromPool pick (pool w)) in
  let pl := snd (rtppool.GetPacketAllocationFromPool pick (pool w)) in
  let w' := snd (pushCopy pick p q ct w) in
  (exists pk, trace w' =
     (trace w ++ [EvNewPacket; EvAcquire b; EvPush ct (PoolPacket b) pk q;
                  EvRelease b; EvPacketRelease])%list) /\
  reader w' = reader w /\
  rtppool.free (pool w') = b :: rtppool.free pl /\
  rtppool.next (pool w') = rtppool.next pl.
Proof.
  unfold pushCopy, newPacket, packetRelease, acquire, load, setHeader, setPayload, storeBuf,
    push, emit, release, ret.
  rewrite !bind_run. cbn [fst snd pool reader trace].
  destruct (rtppool.GetPacketAllocationFromPool pick (pool w)) as [b pl].
  cbn [fst snd pool reader trace]. rewrite ?bind_run. cbn.
  split; [eexists; now rewrite <- !app_assoc | auto].
Qed.

Lemma release_restores_wf (b : nat) (pl : rtppool.Pool) (fr : list nat) (nx : nat) :
  pool_wf pl -> live b pl -> fr = b :: rtppool.free pl -> nx = rtppool.next pl ->
  NoDup fr /\ forall b', b' ∈ fr -> (b' < nx)%nat.
Proof.
  intros [Hnd Hlt] [Hfree Hnext] -> ->. split.
  - now apply NoDup_cons.
  - intros b' [->|Hin]%elem_of_cons; auto.
Qed.
(** What one call of [Track.onRead] adds to the trace: every callback is
    called with the pointer [p] the function was given; one buffer is
    acquired per callback, and when [p] is a buffer in use none of them is
    that buffer. *)
Lemma onRead_trace (t : Track) (p : PacketPtr) (q : QualityLevel) (w : World) :
  exists evs,
    trace (snd (onRead pick t p q w)) = (trace w ++ evs)%list /\
    reader (snd (onRead pick t p q w)) = reader w /\
    callbackArgs evs = map (fun f => (f, p)) (onReadCallbacks t) /\
    length (acquired evs) = length (onReadCallbacks t) /\
    forall c0, p = PoolPacket c0 -> live c0 (pool w) ->
      Forall (fun b => b <> c0) (acquired evs) /\
      live c0 (pool (snd (onRead pick t p q w))).
Proof.
  unfold onRead. revert w.
  induction (onReadCallbacks t) as [|f cbs IH]; intros w.
  - exists []. cbn. rewrite app_nil_r. do 4 (split; [reflexivity|]).
    intros c0 _ Hl. split; [constructor | exact Hl].
  - cbn [forEach]. rewrite bind_run.
    destruct (onRead_body_spec p q f w) as ((pk & Ht1) & Hr1 & Hf1 & Hn1).
    destruct (IH (snd (onRead_body pick p q f w))) as (evs & Ht & Hr & Hargs & Hacq & Hc0).
    eexists (_ ++ evs)%list.
    rewrite Ht, Hr, Ht1, Hr1, <- app_assoc.
    do 2 (split; [reflexivity|]).
    rewrite callbackArgs_app, acquired_app, Hargs, length_app, Hacq.
    do 2 (split; [reflexivity|]).
    intros c0 Hp Hl.
    destruct (acquire_keeps_live c0 (pool w) Hl) as [Hne [Hfree Hnext]].
    cbn in Hfree, Hnext.
    destruct (Hc0 c0 Hp) as [Hall Hl2].
    { split; [now rewrite Hf1 | now rewrite Hn1]. }
    split; [|exact Hl2].
    cbn [acquired app]. constructor; assumption.
Qed.

(** The loop over the client-tracks calls no read-callback and leaves the
    pool in order. *)
Lemma pushCopy_loop (p : PacketPtr) (q : QualityLevel) (cts : list iClientTrack) (w : World) :
  pool_wf (pool w) ->
  exists evs,
    trace (snd (forEach cts (pushCopy pick p q) w)) = (trace w ++ evs)%list /\
    reader (snd (forEach cts (pushCopy pick p q) w)) = reader w /\
    callbackArgs evs = [] /\
    length (acquired evs) = length cts /\
    pool_wf (pool (snd (forEach cts (pushCopy pick p q) w))).
Proof.
  revert w. induction cts as [|ct cts IH]; intros w Hwf.
  - exists []. cbn. now rewrite app_nil_r.
  - cbn [forEach]. rewrite bind_run.
    destruct (pushCopy_spec p q ct w) as ((pk & Ht1) & Hr1 & Hf1 & Hn1).
    destruct (acquire_spec (pool w)) as (_ & _ & _ & Hacq).
    destruct (Hacq Hwf) as [Hwf1 Hlive].
    destruct (IH (snd (pushCopy pick p q ct w))) as (evs & Ht & Hr & Hargs & Hlen & Hwf2).
    { eapply release_restores_wf; eauto. }
    eexists (_ ++ evs)%list.
    rewrite Ht, Hr, Ht1, Hr1, <- app_assoc.
    do 2 (split; [reflexivity|]).
    rewrite callbackArgs_app, acquired_app, Hargs, length_app, Hlen.
    do 2 (split; [reflexivity|]). exact Hwf2.
Qed.

(** X18: on a source packet the fan-out closure of newTrack acquires one buffer
    [c0] after the client-track loop and copies the packet into it;
    Track.onRead then acquires one more buffer per read-callback, yet calls
    every callback with [c0], the pointer it was given, and with none of the
    buffers acquired for the callbacks. *)
Lemma newTrack_onRead_callbacks (t : Track) (p : PacketPtr) (w : World) :
  pool_wf (pool w) ->
  exists (c0 : nat) (pushes calls : list event),
    trace (snd (newTrack_onRead pick t p w)) =
      (trace w ++ pushes ++ [EvNewPacket; EvAcquire c0] ++ calls
         ++ [EvRelease c0; EvPacketRelease])%list /\
    callbackArgs pushes = [] /\
    callbackArgs calls = map (fun f => (f, PoolPacket c0)) (onReadCallbacks t) /\
    length (acquired calls) = length (onReadCallbacks t) /\
    Forall (fun b => b <> c0) (acquired calls).
Proof.
  intros Hwf. unfold newTrack_onRead.
  rewrite bind_run.
  destruct (pushCopy_loop p QualityHigh (baseTrack.clientTracks (base t)) w Hwf)
    as (pushes & Ht0 & Hr0 & Hargs0 & _ & Hwf0).
  set (w0 := snd (forEach (baseTrack.clientTracks (base t)) (pushCopy pick p QualityHigh) w)) in *.
  unfold newPacket, packetRelease, acquire, load, setHeader, setPayload, storeBuf, emit,
    release, ret.
  rewrite !bind_run. cbn [fst snd pool reader trace].
  destruct (acquire_spec (pool w0)) as (_ & _ & _ & Hacq).
  destruct (Hacq Hwf0) as [_ Hlive].
  destruct (rtppool.GetPacketAllocationFromPool pick (pool w0)) as [c0 pl].
  cbn [fst snd pool reader trace] in *. rewrite ?bind_run.
  match goal with
  | |- context [onRead pick t (PoolPacket c0) QualityHigh ?w1] =>
      destruct (onRead_trace t (PoolPacket c0) QualityHigh w1)
        as (calls & Ht & _ & Hargs & Hlen & Hc0)
  end.
  destruct (Hc0 c0 eq_refl Hlive) as [Hall _].
  exists c0, pushes, calls. cbn [fst snd pool reader trace] in *.
  rewrite Ht, Ht0. repeat split; auto.
  now rewrite <- !app_assoc.
Qed.
End FanOut.

(** C2 (the code at a track with one subscriber and two read-callbacks, on
    a pool that hands out a new buffer every time): the client-track gets
    buffer 0, acquired for it; then the closure acquires buffer 1 and copies
    the packet into it, Track.onRead acquires buffers 2 and 3 for the two
    callbacks and releases them unused, and both callbacks are called
    with buffer 1. *)
Theorem newTrack_onRead_two_callbacks :
  trace (snd (Track.newTrack_onRead rtppool.always_fresh track_two_callbacks (ReaderPacket 0)
                world_one_packet)) =
  [EvNewPacket; EvAcquire 0;
   EvPush (clientTrack subscriber "cam" false) (PoolPacket 0) packet_1000 QualityHigh;
   EvRelease 0; EvPacketRelease;
   EvNewPacket; EvAcquire 1;
   EvAcquire 2; EvReadCallback 1%nat (PoolPacket 1) packet_1000 QualityHigh; EvRelease 2;
   EvAcquire 3; EvReadCallback 2%nat (PoolPacket 1) packet_1000 QualityHigh; EvRelease 3;
   EvRelease 1; EvPacketRelease].
Proof. vm_compute. reflexivity. Qed.

(** * Further properties *)

(** ** The registry *)

Section RegistryMore.
Import trackList.

(** X1: Add of a track changes what Get returns for no other id. *)
Theorem Add_other_ids (t : trackList) (tr : ITrack) (id : string) :
  id <> ID tr -> Get id (after (Add tr t)) = Get id t.
Proof.
  intros Hne. unfold Add, after, Get.
  destruct (tracks t !! ID tr); cbn [fst tracks]; [reflexivity|].
  now rewrite lookup_insert_ne.
Qed.

(** X2: after remove(ids), Get fails with TrackIsNotExists for every id
    of the list, present before or not, and returns what it returned before
    for every other id; removing nothing changes nothing. *)
Theorem remove_Get (ids : list string) (t : trackList) (id : string) :
  (id ∈ ids -> Get id (remove ids t) = (None, Some ErrTrackIsNotExists)) /\
  (id ∉ ids -> Get id (remove ids t) = Get id t) /\
  remove [] t = t.
Proof.
  unfold Get. rewrite tracks_remove. repeat split.
  - intros Hin. now rewrite bool_decide_eq_true_2.
  - intros Hnin. now rewrite bool_decide_eq_false_2.
Qed.

(** X3: an Add that succeeds makes the registry one longer; an Add that is
    refused leaves its length; and Add returns no other error than
    TrackExists. *)
Theorem Length_Add (t : trackList) (tr : ITrack) :
  (err (Add tr t) = None /\ Length (after (Add tr t)) = S (Length t)) \/
  (err (Add tr t) = Some ErrTrackExists /\ Length (after (Add tr t)) = Length t).
Proof.
  unfold Add, after, err, Length.
  destruct (tracks t !! ID tr) eqn:E; cbn [fst snd tracks].
  - right. split; reflexivity.
  - left. split; [reflexivity|]. now apply map_size_insert_None.
Qed.

(** X4: after Reset the registry is empty: its length is 0, Get fails for
    every id, GetTracks is empty and every Add succeeds. *)
Theorem Reset_empties (t : trackList) :
  Length (Reset t) = 0%nat /\
  GetTracks (Reset t) = [] /\
  (forall id, Get id (Reset t) = (None, Some ErrTrackIsNotExists)) /\
  (forall tr, err (Add tr (Reset t)) = None /\
              Get (ID tr) (after (Add tr (Reset t))) = (Some tr, None)).
Proof.
  unfold Reset, Length, GetTracks, Get, Add, err, after. cbn [tracks].
  split; [apply map_size_empty|]. split; [now rewrite map_to_list_empty|].
  split; intros x; rewrite lookup_empty; [reflexivity|].
  cbn [fst snd tracks]. now rewrite lookup_insert_eq.
Qed.

(** X5: GetTracks lists exactly the handles Get can return, each once per
    id it is registered under, so as many as Length says. *)
Theorem GetTracks_spec (t : trackList) (tr : ITrack) :
  (tr ∈ GetTracks t <-> exists id, Get id t = (Some tr, None)) /\
  length (GetTracks t) = Length t.
Proof.
  unfold GetTracks, Get, Length. split.
  - rewrite list_elem_of_fmap. split.
    + intros ([id tr'] & -> & Hin). apply elem_of_map_to_list in Hin.
      exists id. cbn. now rewrite Hin.
    + intros (id & Hget). destruct (tracks t !! id) as [tr'|] eqn:E; [|discriminate].
      injection Hget as ->. exists (id, tr). split; [reflexivity|].
      now apply elem_of_map_to_list.
  - rewrite length_fmap. apply length_map_to_list.
Qed.

Lemma serve_keys (r : request) (t : trackList) :
  (forall id tr, tracks t !! id = Some tr -> ID tr = id) ->
  forall id tr, tracks (serve r t) !! id = Some tr -> ID tr = id.
Proof.
  intros Hinv id tr. destruct r as [a|ids|]; cbn [serve].
  - unfold Add. destruct (tracks t !! ID a) eqn:E; cbn [fst tracks]; [apply Hinv|].
    destruct (decide (ID a = id)) as [<-|Hne].
    + rewrite lookup_insert_eq. now intros [= <-].
    + rewrite lookup_insert_ne by done. apply Hinv.
  - rewrite tracks_remove. case_bool_decide; [discriminate | apply Hinv].
  - unfold Reset. cbn. now rewrite lookup_empty.
Qed.

(** X6: in a registry that started empty and was only changed through Add,
    remove and Reset, every track is registered under its own id: whatever
    Get(id) returns has that id. *)
Theorem registry_keys_are_ids (l : list request) (id : string) (tr : ITrack) :
  Get id (serveAll l newTrackList) = (Some tr, None) -> ID tr = id.
Proof.
  assert (Hall : forall l t, (forall id tr, tracks t !! id = Some tr -> ID tr = id) ->
            forall id tr, tracks (serveAll l t) !! id = Some tr -> ID tr = id).
  { clear. induction l as [|r l IH]; intros t Hinv; [exact Hinv|].
    cbn [serveAll]. apply IH. now apply serve_keys. }
  unfold Get. destruct (tracks (serveAll l newTrackList) !! id) as [tr'|] eqn:E; [|discriminate].
  intros [= <-]. eapply Hall; [|exact E].
  intros id' tr'' H. unfold newTrackList in H. cbn in H. now rewrite lookup_empty in H.
Qed.
End RegistryMore.

Lemma Add_other_ids_witness :
  trackList.Get "xyz" (trackList.after (trackList.Add track_abc trackList.newTrackList))
  = (None, Some ErrTrackIsNotExists).
Proof.
  rewrite (Add_other_ids trackList.newTrackList track_abc "xyz"); [reflexivity | discriminate].
Defined.

Lemma remove_Get_witness :
  trackList.Get "abc"
    (trackList.remove ["abc"] (trackList.after (trackList.Add track_abc trackList.newTrackList)))
  = (None, Some ErrTrackIsNotExists).
Proof.
  apply (proj1 (remove_Get ["abc"] _ "abc")). apply list_elem_of_In. now left.
Defined.

Lemma registry_keys_are_ids_witness : ID track_abc = "abc".
Proof.
  apply (registry_keys_are_ids
           [trackList.ReqAdd track_abc; trackList.ReqRemove ["xyz"]; trackList.ReqAdd track_abc']
           "abc" track_abc).
  vm_compute. reflexivity.
Defined.

(** ** The simulcast bundle *)

Section SimulcastMore.
Import SimulcastTrack.

Lemma time_Since_exceeds (now ts : Z) :
  (time_Since now ts >? threshold) = true <-> 500 * Millisecond < now - ts.
Proof.
  destruct (time_Since now ts >? threshold) eqn:E.
  - split; [intros _|reflexivity].
    destruct (Z_lt_le_dec (500 * Millisecond) (now - ts)) as [H|H]; [exact H|].
    apply time_Since_within in H. congruence.
  - apply time_Since_within in E. split; [discriminate | lia].
Qed.

(** X7: a bundle fresh from newSimulcastTrack holds exactly its first
    encoding, in the slot of that encoding's quality; it is not complete,
    nothing was logged or called back, it is not cancelled, it has the id of
    the encoding, and, no packet having been read, none of its qualities is
    active at any clock reading later than 500 ms after the Unix epoch. *)
Theorem newSimulcastTrack_one_slot (c : Client) (tr : IRemoteTrack) (pli : Z) :
  let t := fst (newSimulcastTrack c tr pli) in
  TotalTracks t = 1 /\
  IsTrackComplete t = false /\
  getRemoteTrack (RIDToQuality (rt_RID tr)) t = Some (newRemoteTrack false tr pli) /\
  snd (newSimulcastTrack c tr pli) = [] /\
  cancelled t = false /\
  ID t = rt_ID tr /\
  forall now q, 500 * Millisecond < now -> fst (isTrackActive now q t) = false.
Proof.
  unfold newSimulcastTrack, AddRemoteTrack.
  destruct (RIDToQuality_named (rt_RID tr)) as [-> | [-> | ->]];
    cbn [fst snd]; (repeat split; try reflexivity; []);
    intros now q Hnow;
    (destruct q; try reflexivity; cbn [isTrackActive isNil];
     match goal with
     | |- context [time_Since now ?ts >? threshold] =>
         replace (time_Since now ts >? threshold) with true; [reflexivity|];
         symmetry; apply time_Since_exceeds; cbn; lia
     end).
Qed.

(** X8: after AddRemoteTrack the slot of the encoding's quality holds the
    handle the call returned, also when the slot was occupied before: the
    older remote track is replaced, the number of encodings stays, and the
    slot keeps the last-read time of the one replaced.  An empty slot
    makes the bundle one encoding larger.  The subscribers are untouched. *)
Theorem AddRemoteTrack_lookup (tr : IRemoteTrack) (t : SimulcastTrack) :
  let q := RIDToQuality (rt_RID tr) in
  let t' := state (AddRemoteTrack tr t) in
  getRemoteTrack q t' = returned (AddRemoteTrack tr t) /\
  (getRemoteTrack q t <> None -> TotalTracks t' = TotalTracks t) /\
  (getRemoteTrack q t = None -> TotalTracks t' = TotalTracks t + 1) /\
  (forall q', lastReadTS q' t' = lastReadTS q' t) /\
  base t' = base t.
Proof.
  cbn zeta. split; [|split; [|split; [apply AddRemoteTrack_fills_empty|]]].
  - unfold AddRemoteTrack.
    destruct (RIDToQuality_named (rt_RID tr)) as [-> | [-> | ->]]; reflexivity.
  - unfold AddRemoteTrack, TotalTracks.
    destruct (RIDToQuality_named (rt_RID tr)) as [-> | [-> | ->]];
      cbn [getRemoteTrack state fst snd]; intros Hocc; cbn;
      destruct (remoteTrackHigh t), (remoteTrackMid t), (remoteTrackLow t);
      try reflexivity; congruence.
  - unfold AddRemoteTrack.
    destruct (RIDToQuality_named (rt_RID tr)) as [-> | [-> | ->]];
      split; try reflexivity; intros q'; destruct q'; reflexivity.
Qed.

Lemma addedCalls_app (a b : list event) :
  addedCalls (a ++ b) = (addedCalls a ++ addedCalls b)%list.
Proof.
  induction a as [|e a IH]; [reflexivity|].
  destruct e; simpl; rewrite ?IH; reflexivity.
Qed.

Lemma completionCalls_app (a b : list event) :
  completionCalls (a ++ b) = (completionCalls a ++ completionCalls b)%list.
Proof.
  induction a as [|e a IH]; [reflexivity|].
  destruct e; simpl; rewrite ?IH; reflexivity.
Qed.

Lemma addedCalls_added (rt : remoteTrack) (l : list callback) :
  addedCalls (map (fun f => EvRemoteTrackAddedCallback f rt) l) = map (fun f => (f, rt)) l.
Proof. induction l as [|f l IH]; simpl; [|rewrite IH]; reflexivity. Qed.

Lemma addedCalls_complete (l : list callback) :
  addedCalls (map EvTrackCompleteCallback l) = [].
Proof. induction l; simpl; auto. Qed.

Lemma completionCalls_added (rt : remoteTrack) (l : list callback) :
  completionCalls (map (fun f => EvRemoteTrackAddedCallback f rt) l) = [].
Proof. induction l; simpl; auto. Qed.

Lemma completionCalls_complete (l : list callback) :
  completionCalls (map EvTrackCompleteCallback l) = l.
Proof. induction l as [|f l IH]; simpl; [|rewrite IH]; reflexivity. Qed.

(** X9: every call of AddRemoteTrack calls each callback registered with
    onRemoteTrackAdded exactly once, in the order of registration, with the
    handle the call returns; a callback registered later is called last. *)
Theorem AddRemoteTrack_added_callbacks (tr : IRemoteTrack) (t : SimulcastTrack)
    (f : callback) :
  let rt := newRemoteTrack (reordered t) tr (pliInterval t) in
  returned (AddRemoteTrack tr t) = Some rt /\
  addedCalls (events (AddRemoteTrack tr t)) =
    map (fun g => (g, rt)) (onAddedRemoteTrackCallbacks t) /\
  addedCalls (events (AddRemoteTrack tr (onRemoteTrackAdded f t))) =
    (addedCalls (events (AddRemoteTrack tr t)) ++ [(f, rt)])%list.
Proof.
  assert (Hcalls : forall t0, addedCalls (events (AddRemoteTrack tr t0)) =
            map (fun g => (g, newRemoteTrack (reordered t0) tr (pliInterval t0)))
                (onAddedRemoteTrackCallbacks t0)).
  { intros t0. unfold AddRemoteTrack.
    destruct (RIDToQuality_named (rt_RID tr)) as [-> | [-> | ->]];
      cbn [events snd]; rewrite addedCalls_app;
      unfold onRemoteTrackAddedCallbacks; rewrite addedCalls_added;
      (match goal with
       | |- context [if ?b then _ else _] => destruct b
       end; [unfold onTrackComplete; cbn [addedCalls]; rewrite addedCalls_complete|]);
      reflexivity. }
  cbn zeta. split; [apply AddRemoteTrack_never_nil|]. split; [apply Hcalls|].
  rewrite !Hcalls. unfold onRemoteTrackAdded. cbn. now rewrite map_app.
Qed.

(** X10: a call of AddRemoteTrack that leaves the three slots occupied calls
    each callback registered with OnTrackComplete exactly once, in the
    order of registration; a call that leaves a slot empty calls none. *)
Theorem AddRemoteTrack_completion_callbacks (tr : IRemoteTrack) (t : SimulcastTrack) :
  completionCalls (events (AddRemoteTrack tr t)) =
  if IsTrackComplete (state (AddRemoteTrack tr t)) then onTrackCompleteCallbacks t else [].
Proof.
  rewrite IsTrackComplete_slots. unfold AddRemoteTrack.
  destruct (RIDToQuality_named (rt_RID tr)) as [-> | [-> | ->]];
    cbn [events state snd fst]; rewrite completionCalls_app;
    unfold onRemoteTrackAddedCallbacks; rewrite completionCalls_added, app_nil_r;
    (match goal with
     | |- context [if ?b then onTrackComplete _ else _] => destruct b
     end; [unfold onTrackComplete; cbn [completionCalls]; rewrite completionCalls_complete|]);
    reflexivity.
Qed.

(** X12: sendPLI requests a PLI for the SSRC of every occupied slot, in the
    order high, mid, low, and logs one warning for every empty slot: as
    many requests as the bundle has encodings, and three minus that many
    warnings. *)
Theorem sendPLI_counts (t : SimulcastTrack) :
  plis (sendPLI t) =
    omap (fun q => match getRemoteTrack q t with
                   | Some rt => Some (rt_SSRC (track rt))
                   | None => None
                   end) [QualityHigh; QualityMid; QualityLow] /\
  Z.of_nat (length (plis (sendPLI t))) = TotalTracks t /\
  warnings (sendPLI t) = 3 - TotalTracks t.
Proof.
  unfold sendPLI, TotalTracks, warnings. cbn [omap list_omap getRemoteTrack].
  destruct (remoteTrackHigh t), (remoteTrackMid t), (remoteTrackLow t);
    repeat split; reflexivity.
Qed.

(** X17: TotalTracks counts the occupied slots, so it lies between 0 and 3,
    and IsTrackComplete holds exactly when the high, the mid and the low
    slot are all occupied. *)
Theorem IsTrackComplete_iff (t : SimulcastTrack) :
  TotalTracks t =
    Z.of_nat (length (List.filter (fun q => negb (isNil (getRemoteTrack q t)))
                                  [QualityHigh; QualityMid; QualityLow])) /\
  0 <= TotalTracks t <= 3 /\
  (IsTrackComplete t = true <->
   getRemoteTrack QualityHigh t <> None /\ getRemoteTrack QualityMid t <> None /\
   getRemoteTrack QualityLow t <> None).
Proof.
  unfold IsTrackComplete, TotalTracks. cbn [getRemoteTrack List.filter].
  destruct (remoteTrackHigh t), (remoteTrackMid t), (remoteTrackLow t); cbn;
    (split; [reflexivity|]); (split; [lia|]);
    (split; [try discriminate; intros _; repeat split; discriminate
            | intros (H1 & H2 & H3); try reflexivity; congruence]).
Qed.



(** X15: a packet read on one quality changes neither which slots are
    occupied nor whether any other quality is active. *)
Theorem recordRead_other_qualities (q q' : QualityLevel) (pk : rtpPacket)
    (readTime now : Z) (t : SimulcastTrack) :
  q' <> q ->
  isTrackActive now q' (recordRead q pk readTime t) = isTrackActive now q' t /\
  (forall q0, getRemoteTrack q0 (recordRead q pk readTime t) = getRemoteTrack q0 t) /\
  TotalTracks (recordRead q pk readTime t) = TotalTracks t.
Proof.
  intros Hne.
  assert (Hslots : remoteTrackHigh (recordRead q pk readTime t) = remoteTrackHigh t /\
                   remoteTrackMid (recordRead q pk readTime t) = remoteTrackMid t /\
                   remoteTrackLow (recordRead q pk readTime t) = remoteTrackLow t).
  { unfold recordRead. destruct q;
      repeat match goal with |- context [if ?b then _ else _] => destruct b end;
      repeat split; reflexivity. }
  destruct Hslots as (Hh & Hm & Hl).
  split; [|split].
  - unfold isTrackActive. rewrite Hh, Hm, Hl.
    destruct q'; try reflexivity; destruct q; try congruence;
      unfold recordRead;
      repeat match goal with |- context [if ?b =? 0 then _ else _] => destruct (b =? 0) end;
      reflexivity.
  - intros q0. destruct q0; cbn [getRemoteTrack]; auto.
  - unfold TotalTracks. now rewrite Hh, Hm, Hl.
Qed.

Lemma step_keeps_cancelled (a : action) (t : SimulcastTrack) :
  cancelled t = true -> cancelled (fst (step a t)) = true.
Proof.
  intros Hc. destruct a as [tr|q|f]; cbn [step fst].
  - unfold AddRemoteTrack.
    destruct (RIDToQuality_named (rt_RID tr)) as [-> | [-> | ->]]; exact Hc.
  - destruct q; try reflexivity. exact Hc.
  - exact Hc.
Qed.

Lemma run_keeps_cancelled (l : list action) (t : SimulcastTrack) :
  cancelled t = true -> cancelled (fst (run l t)) = true.
Proof.
  revert t. induction l as [|a l IH]; intros t Hc; [exact Hc|].
  cbn [run]. pose proof (step_keeps_cancelled a t Hc) as Hs.
  destruct (step a t) as [t1 e1]. specialize (IH t1 Hs).
  destruct (run l t1) as [t2 e2]. exact IH.
Qed.

(** X16: cancellation of a bundle is final, and the end of any one encoding
    brings it about: once the remote track of the high, mid or low slot has
    ended, the bundle is cancelled and stays so whatever encodings are added,
    callbacks registered or remote tracks end afterwards. *)
Theorem cancel_is_final (before after : list action) (q : QualityLevel) (t : SimulcastTrack) :
  In q [QualityHigh; QualityMid; QualityLow] ->
  cancelled (fst (run (before ++ ActDone q :: after) t)) = true /\
  (cancelled t = true -> cancelled (fst (run before t)) = true).
Proof.
  intros Hq. split; [|apply run_keeps_cancelled].
  revert t. induction before as [|a l IH]; intros t.
  - cbn [app run step].
    assert (Hc : cancelled (fst (remoteTrackDone q t)) = true).
    { destruct Hq as [<-|[<-|[<-|[]]]]; reflexivity. }
    destruct (remoteTrackDone q t) as [t1 e1]. cbn [fst] in Hc.
    pose proof (run_keeps_cancelled after t1 Hc) as Hr.
    destruct (run after t1). exact Hr.
  - cbn [app run]. destruct (step a t) as [t1 e1]. specialize (IH t1).
    destruct (run (l ++ ActDone q :: after) t1). exact IH.
Qed.


End SimulcastMore.


Lemma isTrackActive_after_read_witness :
  fst (SimulcastTrack.isTrackActive 1500000000 QualityLow
         (SimulcastTrack.recordRead QualityLow packet_1000 1000000000 bundle_low)) = true /\
  fst (SimulcastTrack.isTrackActive 1600000000 QualityLow
         (SimulcastTrack.recordRead QualityLow packet_1000 1000000000 bundle_low)) = false.
Proof.
  split.
  - rewrite (isTrackActive_after_read QualityLow packet_1000 1000000000 1500000000 bundle_low);
      [reflexivity | discriminate].
  - rewrite (isTrackActive_after_read QualityLow packet_1000 1000000000 1600000000 bundle_low);
      [reflexivity | discriminate].
Defined.


Lemma recordRead_other_qualities_witness :
  SimulcastTrack.isTrackActive 1500000000 QualityHigh
    (SimulcastTrack.recordRead QualityMid packet_1000 1000000000 bundle_mixed)
  = SimulcastTrack.isTrackActive 1500000000 QualityHigh bundle_mixed.
Proof.
  apply (recordRead_other_qualities QualityMid QualityHigh). discriminate.
Defined.

Lemma cancel_is_final_witness :
  SimulcastTrack.cancelled
    (fst (SimulcastTrack.run
            ([SimulcastTrack.ActAdd (encoding "mid" 2 false)] ++
             SimulcastTrack.ActDone QualityLow ::
             [SimulcastTrack.ActAdd (encoding "low" 6 false)]) bundle_low)) = true.
Proof.
  apply (cancel_is_final [SimulcastTrack.ActAdd (encoding "mid" 2 false)]
           [SimulcastTrack.ActAdd (encoding "low" 6 false)] QualityLow bundle_low).
  simpl. right. right. left. reflexivity.
Defined.

Lemma AddRemoteTrack_lookup_witness :
  SimulcastTrack.getRemoteTrack QualityHigh
    (state (SimulcastTrack.AddRemoteTrack (encoding "high" 8 false) bundle_mixed))
    = Some (newRemoteTrack false (encoding "high" 8 false) 1000) /\
  SimulcastTrack.TotalTracks
    (state (SimulcastTrack.AddRemoteTrack (encoding "high" 8 false) bundle_mixed)) = 2.
Proof.
  destruct (AddRemoteTrack_lookup (encoding "high" 8 false) bundle_mixed)
    as (Hslot & Hsame & _).
  split; [exact Hslot | apply Hsame; discriminate].
Defined.

(** ** The fan-out *)

Section FanOutMore.
Import Track.
Variable pick : rtppool.policy.

Lemma pushArgs_app (a b : list event) : pushArgs (a ++ b) = (pushArgs a ++ pushArgs b)%list.
Proof.
  induction a as [|e a IH]; [reflexivity|].
  destruct e; simpl; rewrite ?IH; reflexivity.
Qed.

Lemma callbackSaw_app (a b : list event) :
  callbackSaw (a ++ b) = (callbackSaw a ++ callbackSaw b)%list.
Proof.
  induction a as [|e a IH]; [reflexivity|].
  destruct e; simpl; rewrite ?IH; reflexivity.
Qed.

Lemma released_app (a b : list event) : released (a ++ b) = (released a ++ released b)%list.
Proof.
  induction a as [|e a IH]; [reflexivity|].
  destruct e; simpl; rewrite ?IH; reflexivity.
Qed.

Lemma packet_eta (pk : rtpPacket) : mkPacket (Header pk) (Payload pk) = pk.
Proof. now destruct pk. Qed.

(** One round of the loop over the client-tracks, with what is pushed. *)
Lemma pushCopy_pushes (p : PacketPtr) (q : QualityLevel) (ct : iClientTrack) (w : World) :
  let b := fst (rtppool.GetPacketAllocationFromPool pick (pool w)) in
  trace (snd (pushCopy pick p q ct w)) =
    (trace w ++ [EvNewPacket; EvAcquire b; EvPush ct (PoolPacket b) (contents w p) q;
                 EvRelease b; EvPacketRelease])%list.
Proof.
  unfold pushCopy, newPacket, packetRelease, push, setHeader, setPayload, storeBuf, acquire,
    load, emit, release, ret.
  rewrite !bind_run. cbn [fst snd pool reader trace].
  destruct (rtppool.GetPacketAllocationFromPool pick (pool w)) as [b pl].
  cbn [fst snd pool reader trace]. rewrite ?bind_run.
  cbn [fst snd pool reader trace contents rtppool.bufs rtppool.free rtppool.next].
  rewrite !lookup_insert_eq. cbn.
  rewrite packet_eta, <- !app_assoc. reflexivity.
Qed.

Lemma acquire_keeps_contents (c0 : nat) (pl : rtppool.Pool) :
  live c0 pl ->
  rtppool.bufs (snd (rtppool.GetPacketAllocationFromPool pick pl)) !! c0 = rtppool.bufs pl !! c0.
Proof.
  intros [_ Hlt]. unfold rtppool.GetPacketAllocationFromPool, rtppool.fresh.
  destruct (pick (rtppool.free pl)) as [i|]; [destruct (rtppool.free pl !! i)|];
    cbn [snd rtppool.bufs]; try reflexivity; apply lookup_insert_ne; lia.
Qed.

(** One round of the loop of [Track.onRead] when [p] is a buffer in use: what
    the callback sees, and that the buffer keeps what it holds. *)
Lemma onRead_body_saw (c0 : nat) (q : QualityLevel) (f : callback) (w : World) :
  live c0 (pool w) ->
  let b := fst (rtppool.GetPacketAllocationFromPool pick (pool w)) in
  let w' := snd (onRead_body pick (PoolPacket c0) q f w) in
  trace w' =
    (trace w ++ [EvAcquire b;
                 EvReadCallback f (PoolPacket c0) (contents w (PoolPacket c0)) q;
                 EvRelease b])%list /\
  contents w' (PoolPacket c0) = contents w (PoolPacket c0).
Proof.
  intros Hlive.
  destruct (acquire_keeps_live pick c0 (pool w) Hlive) as [Hne _].
  pose proof (acquire_keeps_contents c0 (pool w) Hlive) as Hbufs.
  unfold onRead_body, call, setHeader, setPayload, storeBuf, acquire, load, emit, release.
  rewrite !bind_run. cbn [fst snd pool reader trace].
  destruct (rtppool.GetPacketAllocationFromPool pick (pool w)) as [b pl].
  cbn [fst snd pool reader trace] in *. rewrite ?bind_run.
  cbn [fst snd pool reader trace contents rtppool.bufs rtppool.free rtppool.next
       rtppool.ResetPacketPoolAllocation].
  rewrite !(lookup_insert_ne _ b c0) by exact Hne. rewrite Hbufs.
  split; [now rewrite <- !app_assoc | reflexivity].
Qed.

(** The loop over the client-tracks, in full: one push per client-track, in
    their order, each with the buffer acquired for it, holding what the
    reader's packet holds; every buffer is released right after its push. *)
Lemma pushCopy_loop_full (a : nat) (q : QualityLevel) (cts : list iClientTrack) (w : World) :
  exists evs,
    trace (snd (forEach cts (pushCopy pick (ReaderPacket a) q) w)) = (trace w ++ evs)%list /\
    reader (snd (forEach cts (pushCopy pick (ReaderPacket a) q) w)) = reader w /\
    pushArgs evs =
      zip_with (fun ct b => (ct, PoolPacket b, contents w (ReaderPacket a), q))
               cts (acquired evs) /\
    length (acquired evs) = length cts /\
    released evs = acquired evs /\
    callbackSaw evs = [] /\
    (pool_wf (pool w) -> pool_wf (pool (snd (forEach cts (pushCopy pick (ReaderPacket a) q) w)))).
Proof.
  revert w. induction cts as [|ct cts IH]; intros w.
  - exists []. cbn. rewrite app_nil_r. do 6 (split; [reflexivity|]). auto.
  - cbn [forEach]. rewrite bind_run.
    pose proof (pushCopy_pushes (ReaderPacket a) q ct w) as Ht1.
    destruct (pushCopy_spec pick (ReaderPacket a) q ct w) as (_ & Hr1 & Hf1 & Hn1).
    destruct (IH (snd (pushCopy pick (ReaderPacket a) q ct w)))
      as (evs & Ht & Hr & Hargs & Hlen & Hrel & Hsaw & Hwf).
    cbn zeta in Ht1. eexists (_ ++ evs)%list.
    rewrite Ht, Hr, Ht1, Hr1, <- app_assoc.
    do 2 (split; [reflexivity|]).
    rewrite pushArgs_app, acquired_app, released_app, callbackSaw_app, Hargs, Hrel, Hsaw.
    cbn [pushArgs acquired released callbackSaw app zip_with length contents].
    rewrite Hr1, Hlen.
    do 4 (split; [reflexivity|]).
    intros Hwf0. apply Hwf.
    destruct (acquire_spec pick (pool w)) as (_ & _ & _ & Hacq).
    destruct (Hacq Hwf0) as [Hwf1 Hlive].
    eapply release_restores_wf; eauto.
Qed.

(** The loop of [Track.onRead] on a buffer in use, in full. *)
Lemma onRead_loop_full (t : Track) (c0 : nat) (q : QualityLevel) (w : World) :
  live c0 (pool w) ->
  exists evs,
    trace (snd (onRead pick t (PoolPacket c0) q w)) = (trace w ++ evs)%list /\
    reader (snd (onRead pick t (PoolPacket c0) q w)) = reader w /\
    pushArgs evs = [] /\
    callbackSaw evs =
      map (fun f => (f, contents w (PoolPacket c0), q)) (onReadCallbacks t) /\
    length (acquired evs) = length (onReadCallbacks t) /\
    released evs = acquired evs /\
    live c0 (pool (snd (onRead pick t (PoolPacket c0) q w))) /\
    contents (snd (onRead pick t (PoolPacket c0) q w)) (PoolPacket c0)
      = contents w (PoolPacket c0) /\
    (pool_wf (pool w) -> pool_wf (pool (snd (onRead pick t (PoolPacket c0) q w)))).
Proof.
  unfold onRead. revert w.
  induction (onReadCallbacks t) as [|f cbs IH]; intros w Hlive.
  - exists []. cbn [forEach ret snd map length]. rewrite app_nil_r.
    do 6 (split; [reflexivity|]). split; [exact Hlive|]. split; [reflexivity | auto].
  - cbn [forEach]. rewrite bind_run.
    destruct (onRead_body_saw c0 q f w Hlive) as [Ht1 Hc1].
    destruct (onRead_body_spec pick (PoolPacket c0) q f w) as (_ & Hr1 & Hf1 & Hn1).
    destruct (acquire_keeps_live pick c0 (pool w) Hlive) as [Hne [Hfree Hnext]].
    cbn in Hfree, Hnext.
    assert (Hlive1 : live c0 (pool (snd (onRead_body pick (PoolPacket c0) q f w)))).
    { split; [now rewrite Hf1 | now rewrite Hn1]. }
    destruct (IH _ Hlive1) as (evs & Ht & Hr & Hpush & Hsaw & Hlen & Hrel & Hl & Hc & Hwf).
    eexists (_ ++ evs)%list.
    rewrite Ht, Hr, Ht1, Hr1, Hc, Hc1, <- app_assoc.
    do 2 (split; [reflexivity|]).
    rewrite pushArgs_app, acquired_app, released_app, callbackSaw_app, Hpush, Hsaw, Hrel.
    cbn [pushArgs acquired released callbackSaw app map length].
    rewrite Hc1, Hlen.
    do 4 (split; [reflexivity|]). split; [exact Hl|]. split; [reflexivity|].
    intros Hwf0. apply Hwf.
    destruct (acquire_spec pick (pool w)) as (_ & _ & _ & Hacq).
    destruct (Hacq Hwf0) as [Hwf1 Hliveb].
    eapply release_restores_wf; eauto.
Qed.

(** The whole [onRead] closure of [newTrack] on a packet of the read loop. *)
Lemma newTrack_onRead_full (t : Track) (a : nat) (w : World) :
  pool_wf (pool w) ->
  exists (c0 : nat) (pushes calls : list event),
    trace (snd (newTrack_onRead pick t (ReaderPacket a) w)) =
      (trace w ++ pushes ++ [EvNewPacket; EvAcquire c0] ++ calls
         ++ [EvRelease c0; EvPacketRelease])%list /\
    reader (snd (newTrack_onRead pick t (ReaderPacket a) w)) = reader w /\
    pool_wf (pool (snd (newTrack_onRead pick t (ReaderPacket a) w))) /\
    (pushArgs pushes =
       zip_with (fun ct b => (ct, PoolPacket b, contents w (ReaderPacket a), QualityHigh))
                (baseTrack.clientTracks (base t)) (acquired pushes) /\
     length (acquired pushes) = length (baseTrack.clientTracks (base t)) /\
     released pushes = acquired pushes /\
     callbackSaw pushes = []) /\
    (pushArgs calls = [] /\
     callbackSaw calls =
       map (fun f => (f, contents w (ReaderPacket a), QualityHigh)) (onReadCallbacks t) /\
     length (acquired calls) = length (onReadCallbacks t) /\
     released calls = acquired calls).
Proof.
  intros Hwf. unfold newTrack_onRead.
  rewrite bind_run.
  destruct (pushCopy_loop_full a QualityHigh (baseTrack.clientTracks (base t)) w)
    as (pushes & Ht0 & Hr0 & Hargs0 & Hlen0 & Hrel0 & Hsaw0 & Hwf0).
  specialize (Hwf0 Hwf).
  set (w0 := snd (forEach (baseTrack.clientTracks (base t))
                    (pushCopy pick (ReaderPacket a) QualityHigh) w)) in *.
  unfold newPacket, packetRelease, setHeader, setPayload, storeBuf, acquire, load, emit,
    release, ret.
  rewrite !bind_run. cbn [fst snd pool reader trace].
  destruct (acquire_spec pick (pool w0)) as (_ & _ & _ & Hacq).
  destruct (Hacq Hwf0) as [Hwf1 Hlive].
  destruct (rtppool.GetPacketAllocationFromPool pick (pool w0)) as [c0 pl].
  cbn [fst snd pool reader trace] in *. rewrite ?bind_run.
  match goal with
  | |- context [onRead pick t (PoolPacket c0) QualityHigh ?w1] =>
      destruct (onRead_loop_full t c0 QualityHigh w1)
        as (calls & Ht & Hr & Hpush & Hsaw & Hlen & Hrel & Hl & _ & Hwf2);
        [exact Hlive|]; set (w2 := snd (onRead pick t (PoolPacket c0) QualityHigh w1)) in *
  end.
  cbn [fst snd pool reader trace contents rtppool.bufs rtppool.free rtppool.next] in *.
  rewrite !lookup_insert_eq in Hsaw. cbn in Hsaw. rewrite packet_eta, Hr0 in Hsaw.
  exists c0, pushes, calls. rewrite Ht, Hr, Ht0, Hr0.
  split; [now rewrite <- !app_assoc|]. split; [reflexivity|].
  split; [|split; [repeat split; assumption | repeat split; assumption]].
  eapply release_restores_wf; [apply Hwf2; exact Hwf1 | exact Hl | reflexivity | reflexivity].
Qed.

Lemma zip_with_tags {A B C : Type} (f : A -> B -> A * C) (l : list A) (k : list B) :
  (forall a b, fst (f a b) = a) -> length k = length l ->
  map fst (zip_with f l k) = l.
Proof.
  intros Hf. revert k. induction l as [|a l IH]; intros [|b k] Hlen; try discriminate;
    [reflexivity|]. cbn. rewrite Hf, IH; [reflexivity|]. now injection Hlen.
Qed.

(** X19: on every packet of the read loop, the fan-out closure of newTrack
    pushes to every subscribed client-track exactly once, in the order in
    which they subscribed, each time a pool buffer acquired for that
    client-track alone, holding the header and payload of the packet, and
    tagged QualityHigh. *)
Theorem newTrack_onRead_pushes (t : Track) (a : nat) (w : World) :
  pool_wf (pool w) ->
  exists evs,
    trace (snd (newTrack_onRead pick t (ReaderPacket a) w)) = (trace w ++ evs)%list /\
    pushArgs evs =
      zip_with (fun ct b => (ct, PoolPacket b, contents w (ReaderPacket a), QualityHigh))
               (baseTrack.clientTracks (base t))
               (take (length (baseTrack.clientTracks (base t))) (acquired evs)) /\
    length (pushArgs evs) = length (baseTrack.clientTracks (base t)).
Proof.
  intros Hwf.
  destruct (newTrack_onRead_full t a w Hwf)
    as (c0 & pushes & calls & Ht & _ & _ & (Hargs & Hlen & _ & _) & (Hpush & _)).
  eexists. split; [exact Ht|].
  rewrite !pushArgs_app, !acquired_app, Hpush. cbn [pushArgs app].
  rewrite app_nil_r, take_app_length', Hargs by (symmetry; exact Hlen).
  split; [reflexivity|]. rewrite length_zip_with, Hlen. lia.
Qed.

(** X20: the read-callbacks of a single-encoding track each see, once per
    packet and in the order in which they were registered, the header and
    payload of the packet the read loop delivered, tagged QualityHigh; a
    callback registered with OnRead comes after the ones registered before. *)
Theorem newTrack_onRead_callbacks_see_packet (t : Track) (a : nat) (w : World)
    (f : callback) :
  pool_wf (pool w) ->
  (exists evs,
     trace (snd (newTrack_onRead pick t (ReaderPacket a) w)) = (trace w ++ evs)%list /\
     callbackSaw evs =
       map (fun g => (g, contents w (ReaderPacket a), QualityHigh)) (onReadCallbacks t)) /\
  (exists evs,
     trace (snd (newTrack_onRead pick (OnRead f t) (ReaderPacket a) w))
       = (trace w ++ evs)%list /\
     callbackSaw evs =
       (map (fun g => (g, contents w (ReaderPacket a), QualityHigh)) (onReadCallbacks t)
        ++ [(f, contents w (ReaderPacket a), QualityHigh)])%list).
Proof.
  intros Hwf.
  assert (Hsaw : forall t0, exists evs,
     trace (snd (newTrack_onRead pick t0 (ReaderPacket a) w)) = (trace w ++ evs)%list /\
     callbackSaw evs =
       map (fun g => (g, contents w (ReaderPacket a), QualityHigh)) (onReadCallbacks t0)).
  { intros t0.
    destruct (newTrack_onRead_full t0 a w Hwf)
      as (c0 & pushes & calls & Ht & _ & _ & (_ & _ & _ & Hnone) & (_ & Hsaw & _)).
    eexists. split; [exact Ht|].
    rewrite !callbackSaw_app, Hnone, Hsaw. cbn [callbackSaw app]. now rewrite app_nil_r. }
  split; [apply Hsaw|].
  destruct (Hsaw (OnRead f t)) as (evs & Ht & Hs). exists evs. split; [exact Ht|].
  rewrite Hs. unfold OnRead. cbn. now rewrite map_app.
Qed.

(** X21: the fan-out closure of newTrack gives back to the pool every buffer
    it acquires: one per client-track, one for the read-callbacks and one
    more per read-callback; it leaves the pool in order and never writes to
    the packets of the read loop. *)
Theorem newTrack_onRead_pool (t : Track) (a : nat) (w : World) :
  pool_wf (pool w) ->
  exists evs,
    trace (snd (newTrack_onRead pick t (ReaderPacket a) w)) = (trace w ++ evs)%list /\
    released evs ≡ₚ acquired evs /\
    length (acquired evs) =
      (length (baseTrack.clientTracks (base t)) + 1 + length (onReadCallbacks t))%nat /\
    pool_wf (pool (snd (newTrack_onRead pick t (ReaderPacket a) w))) /\
    reader (snd (newTrack_onRead pick t (ReaderPacket a) w)) = reader w.
Proof.
  intros Hwf.
  destruct (newTrack_onRead_full t a w Hwf)
    as (c0 & pushes & calls & Ht & Hr & Hwf' & (_ & Hlen0 & Hrel0 & _) & (_ & _ & Hlen & Hrel)).
  eexists. split; [exact Ht|].
  rewrite !released_app, !acquired_app, Hrel0, Hrel.
  cbn [released acquired app]. rewrite ?app_nil_r.
  split; [|split; [|split; assumption]].
  - apply Permutation_app_head. symmetry. apply Permutation_cons_append.
  - rewrite length_app. cbn [length]. rewrite Hlen0, Hlen. lia.
Qed.

(** X22: a client that subscribes to a single-encoding track is pushed
    every packet read from then on, after the client-tracks that subscribed
    before it. *)
Theorem subscribe_then_pushed (c : Client) (t : Track) (a : nat) (w : World) :
  pool_wf (pool w) ->
  exists evs,
    trace (snd (newTrack_onRead pick (state (subscribe c t)) (ReaderPacket a) w))
      = (trace w ++ evs)%list /\
    map (fun x => fst (fst (fst x))) (pushArgs evs) =
      (baseTrack.clientTracks (base t) ++ [returned (subscribe c t)])%list.
Proof.
  intros Hwf.
  destruct (newTrack_onRead_full (state (subscribe c t)) a w Hwf)
    as (c0 & pushes & calls & Ht & _ & _ & (Hargs & Hlen & _ & _) & (Hpush & _)).
  eexists. split; [exact Ht|].
  rewrite !pushArgs_app, Hpush, Hargs. cbn [pushArgs app]. rewrite app_nil_r.
  assert (Hcts : baseTrack.clientTracks (base (state (subscribe c t))) =
                 (baseTrack.clientTracks (base t) ++ [returned (subscribe c t)])%list).
  { unfold subscribe.
    repeat match goal with |- context [if ?b then _ else _] => destruct b end; reflexivity. }
  rewrite <- Hcts.
  set (cts := baseTrack.clientTracks (base (state (subscribe c t)))) in *.
  clearbody cts. clear -Hlen.
  revert Hlen. generalize (acquired pushes) as k.
  induction cts as [|ct cts IH]; intros [|b k] Hlen; try discriminate; [reflexivity|].
  cbn. rewrite IH; [reflexivity|]. now injection Hlen.
Qed.

(** X23: SourceType reads back "screen" after SetSourceType("screen") and
    "media" after SetSourceType of anything else, IsScreen agrees with it,
    and SetSourceType changes nothing else of the track. *)
Theorem SetSourceType_SourceType (s : TrackType) (t : Track) :
  SourceType (SetSourceType s t) = (if String.eqb s TrackTypeScreen then TrackTypeScreen
                                    else TrackTypeMedia) /\
  (IsScreen (SetSourceType s t) = true <-> s = TrackTypeScreen) /\
  (IsScreen (SetSourceType s t) = true <-> SourceType (SetSourceType s t) = TrackTypeScreen) /\
  (s = TrackTypeMedia \/ s = TrackTypeScreen -> SourceType (SetSourceType s t) = s) /\
  ID (SetSourceType s t) = ID t /\
  Kind (SetSourceType s t) = Kind t /\
  baseTrack.clientTracks (base (SetSourceType s t)) = baseTrack.clientTracks (base t) /\
  onReadCallbacks (SetSourceType s t) = onReadCallbacks t /\
  IsProcessed (SetSourceType s t) = IsProcessed t.
Proof.
  unfold SourceType, IsScreen, SetSourceType. cbn.
  destruct (String.eqb_spec s TrackTypeScreen) as [->|Hne].
  - repeat split; auto; try discriminate.
  - repeat split; auto; try discriminate; try congruence.
    intros [-> | ->]; [reflexivity | contradiction].
Qed.

Lemma recordRead_frame (q : QualityLevel) (pk : rtpPacket) (readTime : Z)
    (t : SimulcastTrack.SimulcastTrack) :
  SimulcastTrack.base (SimulcastTrack.recordRead q pk readTime t) = SimulcastTrack.base t /\
  SimulcastTrack.onReadCallbacks (SimulcastTrack.recordRead q pk readTime t)
    = SimulcastTrack.onReadCallbacks t.
Proof.
  unfold SimulcastTrack.recordRead. destruct q;
    repeat match goal with |- context [if ?b then _ else _] => destruct b end;
    split; reflexivity.
Qed.

(** The loop of [SimulcastTrack.onRead]: each callback is called with [p];
    the pool and the packets are not touched. *)
Lemma simulcast_onRead_trace (t : SimulcastTrack.SimulcastTrack) (p : PacketPtr)
    (q : QualityLevel) (w : World) :
  pool (snd (SimulcastTrack.onRead t p q w)) = pool w /\
  reader (snd (SimulcastTrack.onRead t p q w)) = reader w /\
  trace (snd (SimulcastTrack.onRead t p q w)) =
    (trace w ++ map (fun f => EvReadCallback f p (contents w p) q)
                    (SimulcastTrack.onReadCallbacks t))%list.
Proof.
  unfold SimulcastTrack.onRead. revert w.
  induction (SimulcastTrack.onReadCallbacks t) as [|f cbs IH]; intros w.
  - cbn. now rewrite app_nil_r.
  - cbn [forEach map]. rewrite bind_run.
    destruct (IH (snd (call f p q w))) as (Hp & Hr & Ht).
    rewrite Hp, Hr, Ht. unfold call, load, emit. rewrite bind_run. cbn [fst snd pool reader trace].
    repeat split; try reflexivity.
    rewrite <- app_assoc. cbn [app].
    replace (contents {| pool := pool w; reader := reader w;
                         trace := trace w ++ [EvReadCallback f p (contents w p) q] |} p)
      with (contents w p) by (destruct p; reflexivity).
    reflexivity.
Qed.

Lemma callbackSaw_calls (p : PacketPtr) (pk : rtpPacket) (q : QualityLevel)
    (l : list callback) :
  callbackSaw (map (fun f => EvReadCallback f p pk q) l) = map (fun f => (f, pk, q)) l /\
  pushArgs (map (fun f => EvReadCallback f p pk q) l) = [] /\
  acquired (map (fun f => EvReadCallback f p pk q) l) = [] /\
  released (map (fun f => EvReadCallback f p pk q) l) = [].
Proof.
  induction l as [|f l (IH1 & IH2 & IH3 & IH4)]; cbn; [auto|].
  rewrite IH1. auto.
Qed.

(** X24: on a packet of the read loop, the closure AddRemoteTrack hands to
    the remote track of a quality records the read for that quality, pushes
    to every client-track once, in order, a pool buffer of its own holding
    the packet and tagged with the quality, and then shows the packet, with
    the same tag, to every read-callback in the order of registration; it
    acquires one buffer per client-track and one more, releases them all,
    and never writes to the packet of the read loop. *)
Theorem AddRemoteTrack_onRead_fanout (quality : QualityLevel) (readTime : Z) (a : nat)
    (t : SimulcastTrack.SimulcastTrack) (w : World) :
  pool_wf (pool w) ->
  let r := SimulcastTrack.AddRemoteTrack_onRead pick quality readTime (ReaderPacket a) t w in
  let pkt := contents w (ReaderPacket a) in
  let cts := baseTrack.clientTracks (SimulcastTrack.base t) in
  fst r = SimulcastTrack.recordRead quality pkt readTime t /\
  exists evs,
    trace (snd r) = (trace w ++ evs)%list /\
    pushArgs evs =
      zip_with (fun ct b => (ct, PoolPacket b, pkt, quality)) cts
               (take (length cts) (acquired evs)) /\
    callbackSaw evs = map (fun f => (f, pkt, quality)) (SimulcastTrack.onReadCallbacks t) /\
    length (acquired evs) = (length cts + 1)%nat /\
    released evs ≡ₚ acquired evs /\
    pool_wf (pool (snd r)) /\
    reader (snd r) = reader w.
Proof.
  intros Hwf. cbn zeta. unfold SimulcastTrack.AddRemoteTrack_onRead.
  rewrite bind_run.
  change (snd (load (ReaderPacket a) w)) with w.
  change (fst (load (ReaderPacket a) w)) with (contents w (ReaderPacket a)). cbv zeta.
  destruct (recordRead_frame quality (contents w (ReaderPacket a)) readTime t) as [Hbase Hcbs].
  set (t1 := SimulcastTrack.recordRead quality (contents w (ReaderPacket a)) readTime t) in *.
  rewrite Hbase. rewrite bind_run.
  destruct (pushCopy_loop_full a quality (baseTrack.clientTracks (SimulcastTrack.base t)) w)
    as (pushes & Ht0 & Hr0 & Hargs0 & Hlen0 & Hrel0 & Hsaw0 & Hwf0).
  specialize (Hwf0 Hwf).
  set (w0 := snd (forEach (baseTrack.clientTracks (SimulcastTrack.base t))
                    (pushCopy pick (ReaderPacket a) quality) w)) in *.
  unfold newPacket, packetRelease, setHeader, setPayload, storeBuf, acquire, load, emit,
    release, ret.
  rewrite !bind_run. cbn [fst snd pool reader trace].
  destruct (acquire_spec pick (pool w0)) as (_ & _ & _ & Hacq).
  destruct (Hacq Hwf0) as [Hwf1 Hlive].
  destruct (rtppool.GetPacketAllocationFromPool pick (pool w0)) as [c0 pl].
  cbn [fst snd pool reader trace] in *. rewrite ?bind_run.
  match goal with
  | |- context [SimulcastTrack.onRead t1 (PoolPacket c0) quality ?w1] =>
      destruct (simulcast_onRead_trace t1 (PoolPacket c0) quality w1) as (Hp & Hr & Ht);
        set (w2 := snd (SimulcastTrack.onRead t1 (PoolPacket c0) quality w1)) in *
  end.
  cbn [fst snd pool reader trace contents rtppool.bufs rtppool.free rtppool.next] in *.
  rewrite !lookup_insert_eq in Ht. cbn in Ht. rewrite packet_eta, Hr0, Hcbs in Ht.
  split; [reflexivity|].
  set (pkt := default zeroPacket (reader w !! a)) in *.
  destruct (callbackSaw_calls (PoolPacket c0) pkt quality (SimulcastTrack.onReadCallbacks t))
    as (Hs1 & Hs2 & Hs3 & Hs4).
  eexists. rewrite Ht, Hr, Hp, Ht0, Hr0.
  split; [rewrite <- !app_assoc; reflexivity|].
  rewrite !pushArgs_app, !callbackSaw_app, !acquired_app, !released_app,
    Hs1, Hs2, Hs3, Hs4, Hsaw0, Hrel0.
  cbn [pushArgs callbackSaw acquired released app rtppool.ResetPacketPoolAllocation
       rtppool.free rtppool.next].
  rewrite ?app_nil_r, take_app_length' by (symmetry; exact Hlen0).
  split; [exact Hargs0|]. split; [reflexivity|].
  split; [rewrite length_app; cbn [length]; lia|].
  split; [reflexivity|]. split; [|reflexivity].
  eapply release_restores_wf; [exact Hwf1 | exact Hlive | reflexivity | reflexivity].
Qed.
End FanOutMore.

Lemma pool_wf_empty : pool_wf rtppool.empty.
Proof.
  split; [constructor|]. intros b Hb. now apply elem_of_nil in Hb.
Qed.

Lemma newTrack_onRead_callbacks_witness :
  exists (c0 : nat) (pushes calls : list event),
    trace (snd (Track.newTrack_onRead rtppool.lifo track_two_callbacks (ReaderPacket 0)
                  world_one_packet)) =
      (pushes ++ [EvNewPacket; EvAcquire c0] ++ calls ++ [EvRelease c0; EvPacketRelease])%list /\
    callbackArgs calls = [(1%nat, PoolPacket c0); (2%nat, PoolPacket c0)] /\
    Forall (fun b => b <> c0) (acquired calls).
Proof.
  destruct (newTrack_onRead_callbacks rtppool.lifo track_two_callbacks (ReaderPacket 0)
              world_one_packet pool_wf_empty)
    as (c0 & pushes & calls & Ht & _ & Hargs & _ & Hne).
  exists c0, pushes, calls. split; [exact Ht|]. split; [exact Hargs | exact Hne].
Defined.

Lemma newTrack_onRead_pushes_witness :
  exists evs,
    trace (snd (Track.newTrack_onRead rtppool.lifo track_two_callbacks (ReaderPacket 0)
                  world_one_packet)) = evs /\
    length (pushArgs evs) = 1%nat.
Proof.
  destruct (newTrack_onRead_pushes rtppool.lifo track_two_callbacks 0%nat
              world_one_packet pool_wf_empty) as (evs & Ht & _ & Hlen).
  exists evs. split; [exact Ht | exact Hlen].
Defined.

Lemma newTrack_onRead_callbacks_see_packet_witness :
  exists evs,
    trace (snd (Track.newTrack_onRead rtppool.lifo track_two_callbacks (ReaderPacket 0)
                  world_one_packet)) = evs /\
    callbackSaw evs = [(1%nat, packet_1000, QualityHigh); (2%nat, packet_1000, QualityHigh)].
Proof.
  destruct (newTrack_onRead_callbacks_see_packet rtppool.lifo track_two_callbacks 0%nat
              world_one_packet 3%nat pool_wf_empty) as [(evs & Ht & Hsaw) _].
  exists evs. split; [exact Ht | exact Hsaw].
Defined.

Lemma newTrack_onRead_pool_witness :
  exists evs,
    trace (snd (Track.newTrack_onRead rtppool.lifo track_two_callbacks (ReaderPacket 0)
                  world_one_packet)) = evs /\
    released evs ≡ₚ acquired evs /\
    length (acquired evs) = 4%nat.
Proof.
  destruct (newTrack_onRead_pool rtppool.lifo track_two_callbacks 0%nat
              world_one_packet pool_wf_empty) as (evs & Ht & Hperm & Hlen & _).
  exists evs. split; [exact Ht|]. split; [exact Hperm | exact Hlen].
Defined.

Lemma subscribe_then_pushed_witness :
  exists evs,
    trace (snd (Track.newTrack_onRead rtppool.lifo
                  (state (Track.subscribe subscriber (track_of RTPCodecTypeAudio red)))
                  (ReaderPacket 0) world_one_packet)) = evs /\
    map (fun x => fst (fst (fst x))) (pushArgs evs) = [clientTrackRed subscriber "mic"].
Proof.
  destruct (subscribe_then_pushed rtppool.lifo subscriber (track_of RTPCodecTypeAudio red)
              0%nat world_one_packet pool_wf_empty) as (evs & Ht & Hcts).
  exists evs. split; [exact Ht | exact Hcts].
Defined.

Lemma SetSourceType_SourceType_witness :
  Track.SourceType (Track.SetSourceType TrackTypeScreen (track_of RTPCodecTypeVideo vp8))
    = TrackTypeScreen /\
  Track.SourceType (Track.SetSourceType TrackTypeMedia (track_of RTPCodecTypeVideo vp8))
    = TrackTypeMedia.
Proof.
  split.
  - apply (SetSourceType_SourceType TrackTypeScreen (track_of RTPCodecTypeVideo vp8)).
    right. reflexivity.
  - apply (SetSourceType_SourceType TrackTypeMedia (track_of RTPCodecTypeVideo vp8)).
    left. reflexivity.
Defined.

Lemma AddRemoteTrack_onRead_fanout_witness :
  fst (SimulcastTrack.AddRemoteTrack_onRead rtppool.lifo QualityLow 1000000000 (ReaderPacket 0)
         bundle_low world_one_packet)
  = SimulcastTrack.recordRead QualityLow packet_1000 1000000000 bundle_low.
Proof.
  apply (AddRemoteTrack_onRead_fanout rtppool.lifo QualityLow 1000000000 0%nat bundle_low
           world_one_packet pool_wf_empty).
Defined.
